(** * Routerlicious task foreman (tmz/baseForeman.ts) and the null blob
    storage service: a shallow embedding and its properties.

    The foreman talks to workers over sockets with emit-and-acknowledge
    messages.  The embedding keeps every effect of the TypeScript explicit:
    the heap of StateManager objects, the messages emitted (each with its
    acknowledgment closure, defunctionalised), the promises created, the
    winston log and the clock.  The transport is the environment: it
    decides which acknowledgment callbacks fire, with which arguments, and
    how much time passes in between. *)

From Stdlib Require Import ZArith Lia Ascii HexadecimalString.
From stdpp Require Import base option list strings pretty.

Local Open Scope string_scope.
Local Open Scope Z_scope.
Local Open Scope list_scope.

(** ** Messages (./messages, socket-storage) *)

(** socketStorage.IWorker: the foreman reads [clientId] only. *)
Record IWorker := { clientId : string }.

(** A socket is an opaque handle owned by the transport. *)
Definition Socket := nat.

Record IWorkerDetail := { worker : IWorker; socket : Socket }.

(** One entry of [doc.workers]: the task type and the worker holding it. *)
Record IWork := { workType : string; detail : IWorkerDetail }.

Record IDocumentWork := {
  tenantId : string;
  documentId : string;
  workers : list IWork;
}.

#[global] Instance IWorker_eq_dec : EqDecision IWorker.
Proof. solve_decision. Defined.
#[global] Instance IWorkerDetail_eq_dec : EqDecision IWorkerDetail.
Proof. solve_decision. Defined.

(** ** The StateManager interface the foreman consumes

    ./stateManager is imported by baseForeman.ts but is not among the
    sources, so the foreman is embedded over any implementation of the
    constructor and the four methods it calls.  As in the specification's
    contract of the State Manager, the three queries only read the manager
    and [revokeWork] updates it.  [getExpiredDocuments] takes no argument in
    the source and reads the clock itself, which is passed here. *)
Class StateManagerOps (M : Type) := {
  StateManager_new : Z -> Z -> list string -> M;
  getExpiredDocuments : Z -> M -> list IDocumentWork;
  revokeWork : IWorkerDetail -> string -> string -> string -> M -> M;
  getActiveServerWorkers : M -> list IWorkerDetail;
  getActiveClientWorkers : M -> list IWorkerDetail;
}.

(** ** nconf: the configuration keys read by the constructor *)
Record Config := {
  tmz_timeoutMSec_worker : Z;
  tmz_timeoutMSec_document : Z;
  tmz_tasks : list string;
  tmz_workerAckTimeMSec : Z;
}.

(** ** The foreman object *)

(** A reference to a StateManager object in the heap. *)
Definition loc := nat.

Record BaseForeman := { manager : loc; ackTimeout : Z }.

(** ** Promises, log, closures *)

Inductive PromiseState :=
  | Pending
  | Fulfilled
  | Rejected (reason : string).

Inductive Level := info | warn | error.

Record LogEntry := { level : Level; message : string }.

(** The two arrow functions handed to [socket.emit], with the variables they
    capture.  [RevokeObjectAck] is the closure of [revokeOne] (it captures
    [this], the promise's [resolve], and the four arguments);
    [AgentObjectAck] is the closure of [broadcastNewAgentModule]. *)
Inductive Callback :=
  | RevokeObjectAck (this : BaseForeman) (p : nat) (w : IWorkerDetail)
                    (tenant document work : string)
  | AgentObjectAck (w : IWorkerDetail) (moduleName : string).

(** One call of [socket.emit(event, ...args, callback)]. *)
Record Emit := {
  em_socket : Socket;
  em_event : string;
  em_args : list string;
  em_callback : Callback;
}.

#[global] Instance PromiseState_eq_dec : EqDecision PromiseState.
Proof. solve_decision. Defined.
#[global] Instance Level_eq_dec : EqDecision Level.
Proof. solve_decision. Defined.
#[global] Instance LogEntry_eq_dec : EqDecision LogEntry.
Proof. solve_decision. Defined.

(** What the transport does: it invokes the callback of the [i]-th emitted
    message with [(error, ack)], where a falsy [ack] (undefined, null) is
    [None] and a worker object is [Some]; or time passes.  The transport may
    invoke a callback once, never, or more than once. *)
Inductive Event :=
  | Deliver (i : nat) (err : string) (ack : option IWorker)
  | Elapse (ms : Z).

Section Foreman.

Context {M : Type} `{StateManagerOps M}.

Record World := {
  heap : list M;
  clock : Z;
  outbox : list Emit;
  promises : list PromiseState;
  winston : list LogEntry;
}.

Definition set_heap (h : list M) (w : World) : World :=
  {| heap := h; clock := clock w; outbox := outbox w;
     promises := promises w; winston := winston w |}.

Definition set_clock (c : Z) (w : World) : World :=
  {| heap := heap w; clock := c; outbox := outbox w;
     promises := promises w; winston := winston w |}.

Definition set_outbox (o : list Emit) (w : World) : World :=
  {| heap := heap w; clock := clock w; outbox := o;
     promises := promises w; winston := winston w |}.

Definition set_promises (ps : list PromiseState) (w : World) : World :=
  {| heap := heap w; clock := clock w; outbox := outbox w;
     promises := ps; winston := winston w |}.

Definition set_winston (l : list LogEntry) (w : World) : World :=
  {| heap := heap w; clock := clock w; outbox := outbox w;
     promises := promises w; winston := l |}.

(** *** Effects: state passing, [None] for a thrown TypeError *)

Definition Eff (A : Type) : Type := World -> option (A * World).

Definition ret {A} (a : A) : Eff A := fun w => Some (a, w).

Definition bind {A B} (m : Eff A) (k : A -> Eff B) : Eff B :=
  fun w => match m w with
           | Some (a, w') => k a w'
           | None => None
           end.

Notation "'let!' x ':=' m 'in' k" := (bind m (fun x => k))
  (at level 10, x name, m at level 100, k at level 200).
Notation "'do!' m 'in' k" := (bind m (fun _ => k))
  (at level 10, m at level 100, k at level 200).

(** [for (const x of xs) { acc.push(f x) }] *)
Fixpoint forM {A B} (xs : list A) (f : A -> Eff B) : Eff (list B) :=
  match xs with
  | [] => ret []
  | x :: xs' =>
      let! b := f x in
      let! bs := forM xs' f in
      ret (b :: bs)
  end.

(** [socket.emit(event, ...args, callback)]: queued for the transport; the
    call itself returns normally. *)
Definition emit (s : Socket) (ev : string) (args : list string)
    (cb : Callback) : Eff unit :=
  fun w => Some (tt, set_outbox (outbox w ++ [Build_Emit s ev args cb]) w).

(** [new Promise(...)]: a fresh pending promise, named by its index. *)
Definition new_promise : Eff nat :=
  fun w => Some (length (promises w), set_promises (promises w ++ [Pending]) w).

(** [resolve()]: settles a pending promise, no effect on a settled one. *)
Definition resolve (p : nat) (w : World) : World :=
  match promises w !! p with
  | Some Pending => set_promises (<[p := Fulfilled]> (promises w)) w
  | _ => w
  end.

Definition winston_log (lv : Level) (msg : string) (w : World) : World :=
  set_winston (winston w ++ [Build_LogEntry lv msg]) w.

(** [Date.now()] *)
Definition Date_now : Eff Z := fun w => Some (clock w, w).

(** Dereference [this.manager]; a dangling reference throws. *)
Definition the_manager (this : BaseForeman) : Eff M :=
  fun w => match heap w !! manager this with
           | Some m => Some (m, w)
           | None => None
           end.

(** *** BaseForeman *)

(** [constructor()] *)
Definition BaseForeman_new (cfg : Config) : Eff BaseForeman :=
  fun w =>
    let m := StateManager_new (tmz_timeoutMSec_worker cfg)
                              (tmz_timeoutMSec_document cfg)
                              (tmz_tasks cfg) in
    Some ({| manager := length (heap w);
             ackTimeout := tmz_workerAckTimeMSec cfg |},
          set_heap (heap w ++ [m]) w).


(** [revokeOne(tenantId, documentId, workType, worker)]: the promise
    executor runs at once and emits; the promise is returned pending. *)
Definition revokeOne (this : BaseForeman) (tenant document work : string)
    (wd : IWorkerDetail) : Eff nat :=
  let! p := new_promise in
  do! emit (socket wd) "RevokeObject"
           [clientId (worker wd); tenant; document; work]
           (RevokeObjectAck this p wd tenant document work) in
  ret p.

(** [revokeExpiredWork()] *)
Definition revokeExpiredWork (this : BaseForeman) : Eff (list nat) :=
  let! m := the_manager this in
  let! now := Date_now in
  let docs := getExpiredDocuments now m in
  let! revokedPromises :=
    forM docs (fun doc =>
      forM (workers doc) (fun wk =>
        revokeOne this (tenantId doc) (documentId doc)
                  (workType wk) (detail wk))) in
  ret (concat revokedPromises).

(** [broadcastNewAgentModule(moduleName, workerType, action)] *)
Definition broadcastNewAgentModule (this : BaseForeman)
    (moduleName workerType action : string) : Eff unit :=
  let! m := the_manager this in
  let ws := if String.eqb workerType "server"
            then getActiveServerWorkers m
            else getActiveClientWorkers m in
  do! forM ws (fun wd =>
        emit (socket wd) "AgentObject"
             [clientId (worker wd); moduleName; action]
             (AgentObjectAck wd moduleName)) in
  ret tt.

(** *** The acknowledgment closures *)

Definition run_callback (cb : Callback) (err : string)
    (ack : option IWorker) (w : World) : World :=
  match cb with
  | RevokeObjectAck this p wd tenant document work =>
      match ack with
      | Some _ =>
          match heap w !! manager this with
          | Some m =>
              resolve p
                (set_heap (<[manager this :=
                              revokeWork wd tenant document work m]> (heap w)) w)
          | None => w
          end
      | None => winston_log error err w
      end
  | AgentObjectAck wd moduleName =>
      match ack with
      | Some _ =>
          winston_log info
            (clientId (worker wd) +:+ " is ready to load " +:+ moduleName) w
      | None => winston_log info err w
      end
  end.

(** *** The event loop, driven by the transport

    No method of the foreman registers a timer, so the passing of time runs
    no code of the foreman: it only moves the clock. *)
Definition step (w : World) (ev : Event) : World :=
  match ev with
  | Deliver i err ack =>
      match outbox w !! i with
      | Some e => run_callback (em_callback e) err ack w
      | None => w
      end
  | Elapse ms => set_clock (clock w + ms) w
  end.

Definition run (evs : list Event) (w : World) : World :=
  fold_left step evs w.

(** *** Vocabulary of the statements *)

(** The message [revokeOne] emits for promise [p]. *)
Definition revoke_emit (this : BaseForeman) (p : nat)
    (x : string * string * IWork) : Emit :=
  let '(tenant, document, wk) := x in
  {| em_socket := socket (detail wk);
     em_event := "RevokeObject";
     em_args := [clientId (worker (detail wk)); tenant; document; workType wk];
     em_callback := RevokeObjectAck this p (detail wk) tenant document
                                    (workType wk) |}.

(** The message [broadcastNewAgentModule] emits to one worker. *)
Definition agent_emit (moduleName action : string) (wd : IWorkerDetail) : Emit :=
  {| em_socket := socket wd;
     em_event := "AgentObject";
     em_args := [clientId (worker wd); moduleName; action];
     em_callback := AgentObjectAck wd moduleName |}.

(** The [(tenantId, documentId, (taskType, worker))] pairs of a list of
    expired documents, in the order of the two nested loops. *)
Definition sweep_pairs (docs : list IDocumentWork)
    : list (string * string * IWork) :=
  flat_map (fun doc => map (fun wk => (tenantId doc, documentId doc, wk))
                           (workers doc)) docs.

(** The world after one revoke request per pair has been issued: one more
    pending promise and one more message for each. *)
Definition add_revokes (this : BaseForeman)
    (pairs : list (string * string * IWork)) (w : World) : World :=
  set_promises (promises w ++ replicate (length pairs) Pending)
    (set_outbox
       (outbox w ++ imap (fun k x => revoke_emit this (length (promises w) + k) x)
                         pairs) w).

(** The transport invokes the callback of message [i] ... *)
Definition delivery_for (i : nat) (ev : Event) : bool :=
  match ev with
  | Deliver j _ _ => bool_decide (j = i)
  | Elapse _ => false
  end.

(** ... with a positive acknowledgment. *)
Definition positive_ack_for (i : nat) (ev : Event) : bool :=
  match ev with
  | Deliver j _ (Some _) => bool_decide (j = i)
  | _ => false
  end.

Definition no_delivery (i : nat) (evs : list Event) : bool :=
  forallb (fun ev => negb (delivery_for i ev)) evs.

Definition no_positive_ack (i : nat) (evs : list Event) : bool :=
  forallb (fun ev => negb (positive_ack_for i ev)) evs.

Definition has_positive_ack (i : nat) (evs : list Event) : bool :=
  existsb (positive_ack_for i) evs.

(** The time that passes during a sequence of events. *)
Definition elapsed (evs : list Event) : Z :=
  fold_right (fun ev acc => match ev with Elapse ms => ms + acc | _ => acc end)
             0 evs.

(** The promise a closure resolves, if any. *)
Definition callback_promise (cb : Callback) : option nat :=
  match cb with
  | RevokeObjectAck _ p _ _ _ _ => Some p
  | AgentObjectAck _ _ => None
  end.

(** Every closure waiting in the outbox holds the [resolve] of a promise
    that exists. *)
Definition wf_world (w : World) : Prop :=
  Forall (fun e => forall p, callback_promise (em_callback e) = Some p ->
                             (p < length (promises w))%nat)
         (outbox w).

(** The closure at [i] is the only one holding the [resolve] of [p]. *)
Definition sole_resolver (i p : nat) (w : World) : Prop :=
  forall j e, outbox w !! j = Some e ->
              callback_promise (em_callback e) = Some p -> j = i.

(** No callback of a message emitted at index [n] or later is invoked. *)
Definition no_delivery_from (n : nat) (evs : list Event) : bool :=
  forallb (fun ev => match ev with
                     | Deliver j _ _ => bool_decide (j < n)%nat
                     | Elapse _ => true
                     end) evs.

(** The workers [broadcastNewAgentModule] selects. *)
Definition broadcast_workers (workerType : string) (m : M) : list IWorkerDetail :=
  if String.eqb workerType "server"
  then getActiveServerWorkers m
  else getActiveClientWorkers m.

(** A promise has settled when it is no longer pending. *)
Definition settled (o : option PromiseState) : Prop :=
  match o with
  | Some Fulfilled | Some (Rejected _) => True
  | _ => False
  end.

End Foreman.

Arguments World M : clear implicits.
Arguments Eff M A : clear implicits.

(** ** The State Manager of the specification *)

Module StateManager.

(** Modelled from the spec: the kind of a worker, one of {server, client};
    ./stateManager is not among the sources. *)
Inductive WorkerKind := server | client.

#[global] Instance WorkerKind_eq_dec : EqDecision WorkerKind.
Proof. solve_decision. Defined.

(** Modelled from the spec: the Worker record of the data model; ./messages
    and ./stateManager are not among the sources.  [wdetail] carries the
    worker's [clientId] and its transport handle (the socket). *)
Record Worker := {
  wdetail : IWorkerDetail;
  kind : WorkerKind;
  connectedAt : Z;
}.

(** Modelled from the spec: the Assignment record of the data model, keyed by
    [(tenantId, documentId, taskType)]; ./stateManager is not among the
    sources. *)
Record Assignment := {
  a_tenantId : string;
  a_documentId : string;
  a_taskType : string;
  holder : IWorkerDetail;
  assignedAt : Z;
  lastActivityAt : Z;
}.

Definition Key : Type := string * string * string.

Definition key_of (a : Assignment) : Key :=
  (a_tenantId a, a_documentId a, a_taskType a).

(** Modelled from the spec: the state owned by the State Manager (Worker
    Registry, Assignment Table and the configured timeouts); the
    StateManager class is not among the sources. *)
Record State := {
  workerTimeout : Z;
  documentTimeout : Z;
  taskTypes : list string;
  registry : list Worker;
  table : list Assignment;
}.

Definition set_table (t : list Assignment) (s : State) : State :=
  {| workerTimeout := workerTimeout s; documentTimeout := documentTimeout s;
     taskTypes := taskTypes s; registry := registry s; table := t |}.

Definition set_registry (r : list Worker) (s : State) : State :=
  {| workerTimeout := workerTimeout s; documentTimeout := documentTimeout s;
     taskTypes := taskTypes s; registry := r; table := table s |}.

(** Modelled from the spec: the State Manager's part of the error taxonomy,
    returned as typed results. *)
Inductive Error := AlreadyAssigned | NotAssigned.

Inductive Result := Ok (s : State) | Err (e : Error).

(** Modelled from the spec: the StateManager constructor, called by the
    foreman with the two timeouts and the task types; nothing is registered
    or assigned at first. *)
Definition new (workerT documentT : Z) (tasks : list string) : State :=
  {| workerTimeout := workerT; documentTimeout := documentT;
     taskTypes := tasks; registry := []; table := [] |}.

(** Modelled from the spec: [registerWorker(detail)] inserts or replaces the
    Worker entry for [detail.clientId]. *)
Definition registerWorker (wd : IWorkerDetail) (k : WorkerKind) (now : Z)
    (s : State) : State :=
  set_registry
    (filter (fun w => clientId (worker (wdetail w)) <> clientId (worker wd))
            (registry s)
       ++ [{| wdetail := wd; kind := k; connectedAt := now |}]) s.

Definition lookup_assignment (k : Key) (s : State) : option Assignment :=
  List.find (fun a => bool_decide (key_of a = k)) (table s).

Definition touch (now : Z) (a : Assignment) : Assignment :=
  {| a_tenantId := a_tenantId a; a_documentId := a_documentId a;
     a_taskType := a_taskType a; holder := holder a;
     assignedAt := assignedAt a; lastActivityAt := now |}.

(** Modelled from the spec: [bindAssignment] fails with [AlreadyAssigned] if
    a live Assignment exists for that key and is held by a different worker;
    otherwise it creates or refreshes the Assignment and sets
    [lastActivityAt = now]. *)
Definition bindAssignment (now : Z) (tenant document task : string)
    (wd : IWorkerDetail) (s : State) : Result :=
  match lookup_assignment (tenant, document, task) s with
  | Some a =>
      if bool_decide (clientId (worker (holder a)) = clientId (worker wd))
      then Ok (set_table
                 (map (fun b => if bool_decide (key_of b = (tenant, document, task))
                                then touch now b else b) (table s)) s)
      else Err AlreadyAssigned
  | None =>
      Ok (set_table
            (table s ++ [{| a_tenantId := tenant; a_documentId := document;
                            a_taskType := task; holder := wd;
                            assignedAt := now; lastActivityAt := now |}]) s)
  end.

(** Modelled from the spec: [removeAssignment] returns whether an Assignment
    existed and was removed. *)
Definition removeAssignment (tenant document task : string) (s : State)
    : bool * State :=
  (bool_decide (is_Some (lookup_assignment (tenant, document, task) s)),
   set_table (filter (fun a => key_of a <> (tenant, document, task)) (table s)) s).

(** Modelled from the spec: an Assignment is expired when
    [now - lastActivityAt > documentTimeout]; the data model tracks no
    liveness signal of the worker, so the document timeout decides. *)
Definition expired (now : Z) (s : State) (a : Assignment) : bool :=
  (documentTimeout s <? now - lastActivityAt a)%Z.

Definition doc_of (a : Assignment) : string * string :=
  (a_tenantId a, a_documentId a).

(** Modelled from the spec: [getExpiredDocuments(now)] lists the documents
    any of whose assignments has expired, each with the full list of its
    current [(taskType, worker)] pairs. *)
Definition getExpiredDocuments (now : Z) (s : State) : list IDocumentWork :=
  map (fun d =>
         {| tenantId := fst d; documentId := snd d;
            workers :=
              map (fun a => {| workType := a_taskType a; detail := holder a |})
                  (filter (fun a => doc_of a = d) (table s)) |})
      (remove_dups (map doc_of (filter (fun a => expired now s a = true) (table s)))).

(** Modelled from the spec: [getActiveWorkers(kind)] returns all registered
    workers of the requested kind. *)
Definition getActiveWorkers (k : WorkerKind) (s : State) : list IWorkerDetail :=
  map wdetail (filter (fun w => kind w = k) (registry s)).

(** A sequence of [bindAssignment] calls; a failed call leaves the state as
    it was. *)
Record BindCall := {
  bc_now : Z;
  bc_tenantId : string;
  bc_documentId : string;
  bc_taskType : string;
  bc_worker : IWorkerDetail;
}.

Definition bind_step (s : State) (c : BindCall) : State :=
  match bindAssignment (bc_now c) (bc_tenantId c) (bc_documentId c)
                       (bc_taskType c) (bc_worker c) s with
  | Ok s' => s'
  | Err _ => s
  end.

Definition bind_all (cs : list BindCall) (s : State) : State :=
  fold_left bind_step cs s.

(** No two Assignments of the table share a key. *)
Definition unique_keys (s : State) : Prop :=
  NoDup (map key_of (table s)).

(** The number of live Assignments under a key. *)
Definition live_count (k : Key) (s : State) : nat :=
  length (filter (fun a => key_of a = k) (table s)).

End StateManager.

(** The foreman runs against this State Manager: [revokeWork] is its
    [removeAssignment], the two worker queries are [getActiveWorkers]. *)
#[global] Instance StateManager_ops : StateManagerOps StateManager.State := {
  StateManager_new := StateManager.new;
  getExpiredDocuments := StateManager.getExpiredDocuments;
  revokeWork := fun _ t d wt s => snd (StateManager.removeAssignment t d wt s);
  getActiveServerWorkers := StateManager.getActiveWorkers StateManager.server;
  getActiveClientWorkers := StateManager.getActiveWorkers StateManager.client;
}.

(** ** NullBlobStorageService *)

Module NullBlobStorageService.

(** The values the methods produce. *)
#[warnings="-register-all"]
Inductive JsValue :=
  | JsNull
  | JsUndefined
  | JsArray (xs : list JsValue).

(** How a call ends: a synchronous throw, or the returned promise fulfilled
    or rejected.  An [async] method that returns a value fulfils with it; one
    that returns [Promise.reject(r)] rejects with [r]. *)
Inductive Outcome :=
  | Throws (msg : string)
  | Resolves (v : JsValue)
  | Rejects (reason : string).

Section Api.

(** The argument types of @prague/container-definitions; no method looks
    inside its arguments. *)
Context {IVersion ITree ISummaryCommit ISummaryPackfileHandle Buffer Number : Type}.

Definition repositoryUrl : Outcome := Throws "Invalid operation".

Definition getSnapshotTree (version : option IVersion) : Outcome :=
  Resolves JsNull.

Definition getVersions (versionId : string) (count : Number) : Outcome :=
  Resolves (JsArray []).

Definition read (blobId : string) : Outcome := Rejects "Invalid operation".

Definition getContent (version : IVersion) (path : string) : Outcome :=
  Resolves JsUndefined.

Definition write (tree : ITree) (parents : list string) (message ref : string)
    : Outcome :=
  Rejects "Null blob storage can not write commit".

Definition uploadSummary (commit : ISummaryCommit) : Outcome :=
  Rejects "Invalid operation".

Definition downloadSummary (handle : ISummaryPackfileHandle) : Outcome :=
  Rejects "Invalid operation".

Definition createBlob (file : Buffer) : Outcome :=
  Rejects "Null blob storage can not create blob".

Definition getRawUrl (blobId : string) : Outcome := Throws "Invalid operation".

(** A use of the service: a member and its arguments. *)
Inductive Call :=
  | call_repositoryUrl
  | call_getSnapshotTree (version : option IVersion)
  | call_getVersions (versionId : string) (count : Number)
  | call_read (blobId : string)
  | call_getContent (version : IVersion) (path : string)
  | call_write (tree : ITree) (parents : list string) (message ref : string)
  | call_uploadSummary (commit : ISummaryCommit)
  | call_downloadSummary (handle : ISummaryPackfileHandle)
  | call_createBlob (file : Buffer)
  | call_getRawUrl (blobId : string).

Definition invoke (c : Call) : Outcome :=
  match c with
  | call_repositoryUrl => repositoryUrl
  | call_getSnapshotTree version => getSnapshotTree version
  | call_getVersions versionId count => getVersions versionId count
  | call_read blobId => read blobId
  | call_getContent version path => getContent version path
  | call_write tree parents message ref => write tree parents message ref
  | call_uploadSummary commit => uploadSummary commit
  | call_downloadSummary handle => downloadSummary handle
  | call_createBlob file => createBlob file
  | call_getRawUrl blobId => getRawUrl blobId
  end.

End Api.

(** The call throws or its promise is rejected. *)
Definition rejects (o : Outcome) : Prop :=
  match o with
  | Throws _ | Rejects _ => True
  | Resolves _ => False
  end.

End NullBlobStorageService.

(** ** A concrete deployment

    One foreman with its State Manager, a server worker [W1] holding two
    tasks of ["doc1"] and a client worker [W2] holding one task of
    ["doc2"]; by time 40000 all three assignments (bound at time 0, document
    timeout 30000) have expired. *)

Module Scenario.

Import StateManager.

Definition W1 : IWorkerDetail :=
  {| worker := {| clientId := "W1" |}; socket := 1%nat |}.
Definition W2 : IWorkerDetail :=
  {| worker := {| clientId := "W2" |}; socket := 2%nat |}.

Definition cfg : Config :=
  {| tmz_timeoutMSec_worker := 60000;
     tmz_timeoutMSec_document := 30000;
     tmz_tasks := ["intel"; "snapshot"];
     tmz_workerAckTimeMSec := 1000 |}.

Definition empty_world : World State :=
  {| heap := []; clock := 0; outbox := []; promises := []; winston := [] |}.

Definition foreman : BaseForeman := {| manager := 0%nat; ackTimeout := 1000 |}.

Definition binds : list BindCall :=
  [ {| bc_now := 0; bc_tenantId := "tenantA"; bc_documentId := "doc1";
       bc_taskType := "intel"; bc_worker := W1 |};
    {| bc_now := 0; bc_tenantId := "tenantA"; bc_documentId := "doc1";
       bc_taskType := "snapshot"; bc_worker := W1 |};
    {| bc_now := 0; bc_tenantId := "tenantA"; bc_documentId := "doc2";
       bc_taskType := "intel"; bc_worker := W2 |} ].

Definition sm : State :=
  bind_all binds
    (registerWorker W2 client 0
       (registerWorker W1 server 0 (new 60000 30000 ["intel"; "snapshot"]))).

Definition world : World State :=
  {| heap := [sm]; clock := 40000; outbox := []; promises := []; winston := [] |}.

End Scenario.

(** ** Runs of the foreman's public interface *)

Section ForemanRuns.

Context {M : Type} `{StateManagerOps M}.

(** What can happen to a world: a foreman is constructed, one of its public
    methods is called, or the transport delivers an event. *)
Inductive Action :=
  | Construct (cfg : Config)
  | Sweep (this : BaseForeman)
  | Broadcast (this : BaseForeman) (moduleName workerType action : string)
  | Transport (ev : Event).

(** The world after a call; a call that throws (at the dereference of
    [this.manager], before any effect) leaves the world as it was. *)
Definition after {A} (m : Eff M A) (w : World M) : World M :=
  match m w with
  | Some (_, w') => w'
  | None => w
  end.

Definition exec (w : World M) (a : Action) : World M :=
  match a with
  | Construct cfg => after (BaseForeman_new cfg) w
  | Sweep this => after (revokeExpiredWork this) w
  | Broadcast this moduleName workerType action =>
      after (broadcastNewAgentModule this moduleName workerType action) w
  | Transport ev => step w ev
  end.

Definition exec_all (acts : list Action) (w : World M) : World M :=
  fold_left exec acts w.

(** What a worker sees of a message: the socket, the event name and the
    arguments (not the callback). *)
Definition on_the_wire (e : Emit) : Socket * string * list string :=
  (em_socket e, em_event e, em_args e).

End ForemanRuns.

(** ** The stress-test orchestrator (the load-test command line) *)

Module Orchestrator.

(** The characters the source writes as double quote, line feed and dot. *)
Definition dquote : ascii := "034"%char.
Definition newline : ascii := "010"%char.
Definition dot : ascii := "."%char.

(** A template literal, and a property key, render a missing value as
    the string [undefined]. *)
Definition interpolate (v : option string) : string := default "undefined" v.

(** [createLoginEnv(userName, password)]: the template literal of an object
    with one property.  At run time either argument may be missing. *)
Definition createLoginEnv (userName password : option string) : string :=
  "{" +:+ String dquote (interpolate userName +:+
    String dquote (": " +:+ String dquote (interpolate password +:+
      String dquote "}"))).

(** [ITestUserConfig]: the object's own properties, in the order of
    [Object.keys]. *)
Definition ITestUserConfig : Type := list (string * string).

Definition Object_keys (o : ITestUserConfig) : list string := o.*1.

(** [o[key]] *)
Definition get (o : ITestUserConfig) (key : option string) : option string :=
  snd <$> List.find (fun kv => bool_decide (kv.1 = interpolate key)) o.

(** The account of the runner [index]:
    [userNames[(index + startIndex) % userNames.length]]; with no user the
    remainder is NaN and the element is missing. *)
Definition runnerUserName (userNames : list string) (startIndex index : nat)
    : option string :=
  userNames !! ((index + startIndex) mod length userNames)%nat.

(** The [login__odsp__test__accounts] variable in the environment of the
    runner [index].  Before the child is spawned its home directory is built
    with [path.join(os.homedir(), "fluidStressTest", userName)], which throws
    when [userName] is missing: then the runner is never spawned and there
    is no variable ([None]). *)
Definition runnerLogin (testUsers : ITestUserConfig) (startIndex index : nat)
    : option string :=
  let userNames := Object_keys testUsers in
  let userName := runnerUserName userNames startIndex index in
  let password := get testUsers userName in
  match userName with
  | None => None
  | Some _ => Some (createLoginEnv userName password)
  end.

(** [n.toString(16)] of a non-negative integer. *)
Definition toString16 (n : N) : string :=
  HexadecimalString.NilZero.string_of_uint (N.to_hex_uint n).

(** [(args.seed ?? Date.now()).toString(16)]: a seed given on the command
    line reaches the code as the text that was typed, and the [toString] of
    a string ignores the radix; without one the seed is the clock, a
    non-negative integer, printed in hexadecimal. *)
Definition seedText (seed : option string) (now : N) : string :=
  match seed with
  | Some text => text
  | None => toString16 now
  end.

(** The body of the loop that builds [runnerArgs]: the arguments of the
    child process [i]. *)
Definition childArgs (driver profileName url : string) (seed : option string)
    (now : N) (debug verbose : bool) (i : nat) : list string :=
  let args := [ "./dist/runner.js";
                "--driver"; driver;
                "--profile"; profileName;
                "--runId"; pretty i;
                "--url"; url;
                "--seed"; "0x" +:+ seedText seed now ] in
  let args := if debug
              then ("--inspect=" +:+ pretty (9230 + N.of_nat i)%N) :: args
              else args in
  if verbose then args ++ ["--verbose"] else args.

(** [for (let i = 0; i < profile.numClients; i++)] *)
Definition runnerArgs (driver profileName url : string) (seed : option string)
    (now : N) (debug verbose : bool) (numClients : nat) : list (list string) :=
  map (childArgs driver profileName url seed now debug verbose)
      (seq 0 numClients).

(** *** setIoEvents *)

Inductive Telemetry :=
  | TelemetryEvent (eventName category : string) (lineNo runId : nat)
                   (userName data : string)
  | ErrorEvent (eventName category : string) (lineNo runId : nat)
               (userName data error : string).

(** The two counters of the closures, the console and the telemetry sent. *)
Record Io := {
  stdOutLine : nat;
  stdErrLine : nat;
  console : list string;
  telemetry : list Telemetry;
}.

(** A ["data"] event of the child's standard output or standard error. *)
Inductive Chunk :=
  | Stdout (data : string)
  | Stderr (data : string).

(** [data.replace(/\./g, "")] *)
Fixpoint remove_dots (data : string) : string :=
  match data with
  | EmptyString => EmptyString
  | String c rest =>
      if Ascii.eqb c dot then remove_dots rest else String c (remove_dots rest)
  end.

(** [data.split("\n")[0]] *)
Fixpoint first_line (data : string) : string :=
  match data with
  | EmptyString => EmptyString
  | String c rest =>
      if Ascii.eqb c newline then EmptyString else String c (first_line rest)
  end.

Definition on_stdout (runId : nat) (userName data : string) (io : Io) : Io :=
  let io := {| stdOutLine := stdOutLine io; stdErrLine := stdErrLine io;
               console := console io ++ [data]; telemetry := telemetry io |} in
  if (0 <? String.length (remove_dots data))%nat
  then {| stdOutLine := S (stdOutLine io); stdErrLine := stdErrLine io;
          console := console io;
          telemetry := telemetry io
            ++ [TelemetryEvent "Runner Console" "generic" (stdOutLine io)
                               runId userName data] |}
  else io.

Definition on_stderr (runId : nat) (userName data : string) (io : Io) : Io :=
  {| stdOutLine := stdOutLine io; stdErrLine := S (stdErrLine io);
     console := console io ++ [data];
     telemetry := telemetry io
       ++ [ErrorEvent "Runner Error" "error" (stdErrLine io) runId userName
                      data (first_line data)] |}.

Definition on_chunk (runId : nat) (userName : string) (io : Io) (c : Chunk)
    : Io :=
  match c with
  | Stdout data => on_stdout runId userName data io
  | Stderr data => on_stderr runId userName data io
  end.

(** [setIoEvents(process, telemetryClient, runId, userName)] followed by the
    chunks the child writes: both counters start at zero. *)
Definition setIoEvents (runId : nat) (userName : string) (chunks : list Chunk)
    : Io :=
  fold_left (on_chunk runId userName) chunks
    {| stdOutLine := 0; stdErrLine := 0; console := []; telemetry := [] |}.

(** *** Vocabulary of the statements *)




Definition console_lines (t : list Telemetry) : list nat :=
  omap (fun ev => match ev with
                  | TelemetryEvent _ _ n _ _ _ => Some n
                  | ErrorEvent _ _ _ _ _ _ _ => None
                  end) t.

Definition error_lines (t : list Telemetry) : list nat :=
  omap (fun ev => match ev with
                  | ErrorEvent _ _ n _ _ _ _ => Some n
                  | TelemetryEvent _ _ _ _ _ _ => None
                  end) t.

(** The string has no double quote. *)
Fixpoint quote_free (s : string) : Prop :=
  match s with
  | EmptyString => True
  | String c rest => c <> dquote /\ quote_free rest
  end.


(** The line numbers sent so far are 0, 1, 2, ... on each stream. *)
Definition numbered_from_zero (io : Io) : Prop :=
  console_lines (telemetry io) = seq 0 (stdOutLine io)
  /\ error_lines (telemetry io) = seq 0 (stdErrLine io).


End Orchestrator.

(** ** More concrete worlds *)

Module Scenario2.

Import StateManager Scenario.

(** The deployment of [Scenario] at time 100: nothing has expired yet. *)
Definition early_world : World State :=
  {| heap := [sm]; clock := 100; outbox := []; promises := []; winston := [] |}.

(** A foreman whose State Manager has no worker registered. *)
Definition idle_world : World State :=
  {| heap := [new 60000 30000 ["intel"; "snapshot"]]; clock := 0;
     outbox := []; promises := []; winston := [] |}.

(** Every sub-revoke of the sweep of [world] is acknowledged, in another
    order than it was sent, after one was first declined. *)
Definition all_acked : list Event :=
  [ Deliver 2 "done" (Some (worker W2));
    Deliver 0 "busy" None;
    Elapse 2000;
    Deliver 1 "done" (Some (worker W1));
    Deliver 0 "done" (Some (worker W1)) ].

(** A construction, a sweep, a broadcast and some traffic. *)
Definition busy_day : list (@Action) :=
  [ Construct cfg;
    Sweep foreman;
    Broadcast foreman "translator.js" "client" "add";
    Transport (Deliver 0 "done" (Some (worker W1)));
    Transport (Elapse 60000);
    Sweep foreman;
    Transport (Deliver 3 "busy" None) ].

(** Test accounts, in the order of [Object.keys]. *)
Definition accounts : Orchestrator.ITestUserConfig :=
  [ ("alice@contoso.test", "pw-a");
    ("bob@contoso.test", "pw-b");
    ("carol@contoso.test", "pw-c") ].

End Scenario2.

(** * Properties *)

(** ** The foreman against any State Manager *)

Section ForemanFacts.

Context {M : Type} `{StateManagerOps M}.

Implicit Types (w : World M) (this : BaseForeman) (evs : list Event).
Implicit Types (ev : Event) (e : Emit) (cb : Callback) (p i : nat).

Lemma run_cons ev evs w : run (ev :: evs) w = run evs (step w ev).
Proof. reflexivity. Qed.

Lemma run_app evs1 evs2 w : run (evs1 ++ evs2) w = run evs2 (run evs1 w).
Proof. unfold run. apply fold_left_app. Qed.

Lemma resolve_heap p w : heap (resolve p w) = heap w.
Proof. unfold resolve. by destruct (promises w !! p) as [[]|]. Qed.

Lemma resolve_outbox p w : outbox (resolve p w) = outbox w.
Proof. unfold resolve. by destruct (promises w !! p) as [[]|]. Qed.

Lemma resolve_winston p w : winston (resolve p w) = winston w.
Proof. unfold resolve. by destruct (promises w !! p) as [[]|]. Qed.

Lemma resolve_clock p w : clock (resolve p w) = clock w.
Proof. unfold resolve. by destruct (promises w !! p) as [[]|]. Qed.

Lemma resolve_promises_length p w :
  length (promises (resolve p w)) = length (promises w).
Proof.
  unfold resolve. destruct (promises w !! p) as [[]|]; simpl; try done.
  by rewrite length_insert.
Qed.

(** No closure emits: the outbox is the same after any event. *)
Lemma step_outbox w ev : outbox (step w ev) = outbox w.
Proof.
  destruct ev as [i err ack|ms]; simpl; [|done].
  destruct (outbox w !! i) as [e|]; [|done].
  destruct (em_callback e), ack; simpl; try done.
  destruct (heap w !! manager this); [|done].
  by rewrite resolve_outbox.
Qed.

Lemma run_outbox evs w : outbox (run evs w) = outbox w.
Proof.
  revert w. induction evs as [|ev evs IH]; intros w; [done|].
  by rewrite run_cons, IH, step_outbox.
Qed.

Lemma step_promises_length w ev :
  length (promises (step w ev)) = length (promises w).
Proof.
  destruct ev as [i err ack|ms]; simpl; [|done].
  destruct (outbox w !! i) as [e|]; [|done].
  destruct (em_callback e), ack; simpl; try done.
  destruct (heap w !! manager this); [|done].
  by rewrite resolve_promises_length.
Qed.

Lemma step_heap_length w ev : length (heap (step w ev)) = length (heap w).
Proof.
  destruct ev as [i err ack|ms]; simpl; [|done].
  destruct (outbox w !! i) as [e|]; [|done].
  destruct (em_callback e), ack; simpl; try done.
  destruct (heap w !! manager this); [|done].
  by rewrite resolve_heap; simpl; rewrite length_insert.
Qed.

Lemma run_heap_length evs w : length (heap (run evs w)) = length (heap w).
Proof.
  revert w. induction evs as [|ev evs IH]; intros w; [done|].
  by rewrite run_cons, IH, step_heap_length.
Qed.

Lemma step_wf w ev : wf_world w -> wf_world (step w ev).
Proof.
  unfold wf_world. rewrite step_outbox, step_promises_length. done.
Qed.

Lemma run_clock evs w : clock (run evs w) = clock w + elapsed evs.
Proof.
  revert w. induction evs as [|ev evs IH]; intros w.
  - simpl. lia.
  - rewrite run_cons, IH. destruct ev as [i err ack|ms]; simpl; [|lia].
    f_equal.
    destruct (outbox w !! i) as [e|]; [|done].
    destruct (em_callback e), ack; simpl; try done.
    destruct (heap w !! manager this); [|done].
    by rewrite resolve_clock.
Qed.

(** [revokeOne] never throws: it creates the promise and emits. *)
Lemma revokeOne_eq this tenant document work wd w :
  revokeOne this tenant document work wd w
  = Some (length (promises w),
          add_revokes this [(tenant, document,
                             {| workType := work; detail := wd |})] w).
Proof.
  unfold revokeOne, bind, new_promise, emit, ret, add_revokes; simpl.
  rewrite Nat.add_0_r. reflexivity.
Qed.

(** The State Manager objects after a closure has run depend on the ones
    before and on the acknowledgment only. *)
Lemma run_callback_heap cb err ack w w' :
  heap w' = heap w ->
  heap (run_callback cb err ack w') = heap (run_callback cb err ack w).
Proof.
  intros Hh. destruct cb as [this p wd t d wt|wd md], ack as [a|]; simpl;
    try done.
  rewrite Hh. destruct (heap w !! manager this); [|done].
  by rewrite !resolve_heap.
Qed.

(** A revoke request whose callback has had no positive acknowledgment has
    changed no State Manager: one step. *)
Lemma step_heap_sim w w' e ev :
  heap w' = heap w ->
  outbox w' = outbox w ++ [e] ->
  positive_ack_for (length (outbox w)) ev = false ->
  heap (step w' ev) = heap (step w ev).
Proof.
  intros Hh Ho Hev. destruct ev as [i err ack|ms]; simpl; [|done].
  rewrite Ho. destruct (lt_eq_lt_dec i (length (outbox w))) as [[Hlt|Heq]|Hgt].
  - rewrite lookup_app_l by done.
    destruct (outbox w !! i) as [e'|]; [|done].
    by apply run_callback_heap.
  - subst i. rewrite list_lookup_middle by done.
    rewrite lookup_ge_None_2 by lia.
    destruct ack as [a|]; simpl in Hev.
    + by rewrite bool_decide_eq_true_2 in Hev.
    + by destruct (em_callback e).
  - rewrite !lookup_ge_None_2; [done|lia|].
    rewrite length_app. simpl. lia.
Qed.

Lemma run_heap_sim evs w w' e :
  heap w' = heap w ->
  outbox w' = outbox w ++ [e] ->
  no_positive_ack (length (outbox w)) evs = true ->
  heap (run evs w') = heap (run evs w).
Proof.
  revert w w'. induction evs as [|ev evs IH]; intros w w' Hh Ho Hevs; [done|].
  simpl in Hevs. apply andb_prop in Hevs as [Hev Hevs].
  apply negb_true_iff in Hev.
  rewrite !run_cons. apply IH.
  - by apply step_heap_sim with e.
  - by rewrite !step_outbox.
  - by rewrite step_outbox.
Qed.

(** A positive acknowledgment to the closure of [revokeOne] calls
    [revokeWork] on [this.manager] and resolves the promise. *)
Lemma step_positive_ack w i err a this p wd tenant document work m x :
  outbox w !! i = Some x ->
  em_callback x = RevokeObjectAck this p wd tenant document work ->
  heap w !! manager this = Some m ->
  step w (Deliver i err (Some a))
  = resolve p (set_heap (<[manager this :=
                            revokeWork wd tenant document work m]> (heap w)) w).
Proof.
  intros Hx Hcb Hm. unfold step. rewrite Hx. unfold run_callback.
  by rewrite Hcb, Hm.
Qed.

(** A negative acknowledgment to the closure of [revokeOne] is logged with
    [winston.error] and does nothing else. *)
Lemma step_negative_ack w i err this p wd tenant document work x :
  outbox w !! i = Some x ->
  em_callback x = RevokeObjectAck this p wd tenant document work ->
  step w (Deliver i err None) = winston_log error err w.
Proof.
  intros Hx Hcb. unfold step. rewrite Hx. unfold run_callback.
  by rewrite Hcb.
Qed.

(** C1. Within one assignment's revoke, [revokeWork] (the remove mutation of
    the State Manager) is performed only after a positive acknowledgment to
    that revoke has been observed.  The request is one message on the owning
    worker's socket; issuing it changes no State Manager; as long as the
    transport has delivered no positive acknowledgment to the request's
    callback, whatever else happens (negative acknowledgments, time passing,
    the callbacks of other requests), the State Managers are exactly what
    they would be had the request never been issued; and the step that
    delivers a positive acknowledgment is the one that applies
    [revokeWork]. *)
Theorem revoke_only_after_positive_ack this tenant document work wd w evs :
  no_positive_ack (length (outbox w)) evs = true ->
  exists p w1,
    revokeOne this tenant document work wd w = Some (p, w1)
    /\ outbox w1
       = outbox w ++ [revoke_emit this p
                        (tenant, document, {| workType := work; detail := wd |})]
    /\ heap w1 = heap w
    /\ heap (run evs w1) = heap (run evs w)
    /\ forall err a m,
         heap (run evs w1) !! manager this = Some m ->
         heap (step (run evs w1) (Deliver (length (outbox w)) err (Some a)))
         = <[manager this := revokeWork wd tenant document work m]>
             (heap (run evs w1)).
Proof.
  intros Hevs. eexists _, _. split; [apply revokeOne_eq|].
  split; [simpl; by rewrite Nat.add_0_r|]. split; [done|]. split.
  - eapply run_heap_sim; [done| |done]. simpl. by rewrite Nat.add_0_r.
  - intros err a m Hm.
    erewrite step_positive_ack; [|..|exact Hm].
    + by rewrite resolve_heap.
    + rewrite run_outbox. simpl. by apply list_lookup_middle.
    + simpl. reflexivity.
Qed.

(** A revoke request whose callback is never invoked commutes with every
    other event: the world is the one without the request, plus the pending
    promise and the message. *)
Lemma step_add_revoke this x w ev :
  wf_world w ->
  delivery_for (length (outbox w)) ev = false ->
  step (add_revokes this [x] w) ev = add_revokes this [x] (step w ev).
Proof.
  intros Hwf Hev. destruct ev as [i err ack|ms]; [|done].
  simpl in Hev. apply bool_decide_eq_false in Hev.
  destruct w as [h c o ps lg]. unfold wf_world in Hwf. simpl in *.
  destruct (decide (i < length o)%nat) as [Hlt|Hge].
  - rewrite lookup_app_l by done.
    destruct (o !! i) as [e|] eqn:He; [|done].
    pose proof (proj1 (Forall_lookup _ _) Hwf i e He) as Hp.
    cbv beta in Hp.
    destruct (em_callback e) as [this' p wd t d wt|wd md], ack as [a|];
      simpl; try done.
    destruct (h !! manager this') as [m|]; [|done].
    specialize (Hp p eq_refl).
    unfold resolve; simpl. rewrite lookup_app_l by done.
    destruct (ps !! p) as [[]|]; try done.
    unfold add_revokes, set_promises, set_outbox; simpl.
    rewrite insert_app_l by done. by rewrite length_insert.
  - rewrite lookup_ge_None_2 by (rewrite length_app; simpl; lia).
    by rewrite lookup_ge_None_2 by lia.
Qed.

Lemma run_add_revoke this x evs w :
  wf_world w ->
  no_delivery (length (outbox w)) evs = true ->
  run evs (add_revokes this [x] w) = add_revokes this [x] (run evs w).
Proof.
  revert w. induction evs as [|ev evs IH]; intros w Hwf Hevs; [done|].
  simpl in Hevs. apply andb_prop in Hevs as [Hev Hevs].
  apply negb_true_iff in Hev.
  rewrite !run_cons, step_add_revoke by done.
  apply IH; [by apply step_wf|by rewrite step_outbox].
Qed.

Lemma run_promises_length evs w :
  length (promises (run evs w)) = length (promises w).
Proof.
  revert w. induction evs as [|ev evs IH]; intros w; [done|].
  by rewrite run_cons, IH, step_promises_length.
Qed.

(** C2 (as the code has it).  [revokeOne] registers no timer and never reads
    [ackTimeout]: the wait for the worker's acknowledgment is not bounded.
    If the transport never invokes the callback of a revoke request, then
    however much time passes (the clock advances by the time elapsed), and
    whatever happens to other requests, the promise of the request is still
    pending. *)
Theorem revoke_wait_is_unbounded this tenant document work wd w evs :
  wf_world w ->
  no_delivery (length (outbox w)) evs = true ->
  exists p w1,
    revokeOne this tenant document work wd w = Some (p, w1)
    /\ clock (run evs w1) = clock w + elapsed evs
    /\ promises (run evs w1) !! p = Some Pending.
Proof.
  intros Hwf Hevs. eexists _, _. split; [apply revokeOne_eq|]. split.
  - by rewrite run_clock.
  - rewrite run_add_revoke by done. simpl.
    rewrite <- (run_promises_length evs w). by apply list_lookup_middle.
Qed.

(** C3 (as the code has it).  A negative acknowledgment to a revoke request
    is logged with [winston.error] and changes nothing else: no State
    Manager is touched, nothing is sent again, the promise is left as it
    was.  When no acknowledgment arrives at all, the request leaves no trace
    but its message and its pending promise: the State Managers and the log
    are what they would be without the request, however much time passes. *)
Theorem failed_revoke_leaves_assignment this tenant document work wd w evs :
  wf_world w ->
  exists p w1,
    revokeOne this tenant document work wd w = Some (p, w1)
    /\ (forall err,
          step (run evs w1) (Deliver (length (outbox w)) err None)
          = winston_log error err (run evs w1))
    /\ (no_delivery (length (outbox w)) evs = true ->
          heap (run evs w1) = heap (run evs w)
          /\ winston (run evs w1) = winston (run evs w)
          /\ outbox (run evs w1) = outbox w1).
Proof.
  intros Hwf. eexists _, _. split; [apply revokeOne_eq|]. split.
  - intros err. eapply step_negative_ack.
    + rewrite run_outbox. simpl. by apply list_lookup_middle.
    + simpl. reflexivity.
  - intros Hevs. rewrite run_outbox. rewrite run_add_revoke by done. done.
Qed.

(** *** The sweep *)

Lemma add_revokes_nil this w : add_revokes this [] w = w.
Proof.
  destruct w. unfold add_revokes, set_promises, set_outbox; simpl.
  by rewrite !app_nil_r.
Qed.

Lemma add_revokes_app this xs ys w :
  add_revokes this (xs ++ ys) w = add_revokes this ys (add_revokes this xs w).
Proof.
  destruct w as [h c o ps lg].
  unfold add_revokes, set_promises, set_outbox; simpl.
  rewrite !length_app, replicate_add, imap_app, length_replicate, !app_assoc.
  do 2 f_equal. apply imap_ext. intros k x _. simpl.
  by rewrite Nat.add_assoc.
Qed.

(** The inner loop, [for (let worker of doc.workers)]. *)
Lemma forM_revokeOne this tenant document wks w :
  forM wks (fun wk => revokeOne this tenant document (workType wk) (detail wk)) w
  = Some (seq (length (promises w)) (length wks),
          add_revokes this (map (fun wk => (tenant, document, wk)) wks) w).
Proof.
  revert w. induction wks as [|wk wks IH]; intros w.
  - simpl. unfold ret. by rewrite add_revokes_nil.
  - cbn [forM]. unfold bind at 1. rewrite revokeOne_eq.
    unfold bind at 1. rewrite IH. unfold ret.
    destruct wk as [wt wd]. cbn [workType detail map].
    change ((tenant, document, {| workType := wt; detail := wd |})
              :: map (fun wk => (tenant, document, wk)) wks)
      with ([(tenant, document, {| workType := wt; detail := wd |})]
              ++ map (fun wk => (tenant, document, wk)) wks).
    rewrite add_revokes_app. do 2 f_equal.
    unfold add_revokes. cbn [promises set_promises length seq].
    do 2 f_equal. rewrite length_app. simpl. lia.
Qed.

(** The outer loop, [for (let doc of docs)]. *)
Lemma forM_docs this docs w :
  exists pss,
    forM docs (fun doc =>
      forM (workers doc) (fun wk =>
        revokeOne this (tenantId doc) (documentId doc)
                  (workType wk) (detail wk))) w
    = Some (pss, add_revokes this (sweep_pairs docs) w)
    /\ concat pss = seq (length (promises w)) (length (sweep_pairs docs)).
Proof.
  revert w. induction docs as [|doc docs IH]; intros w.
  - exists []. simpl. unfold ret. by rewrite add_revokes_nil.
  - cbn [forM]. unfold bind at 1. rewrite forM_revokeOne.
    destruct (IH (add_revokes this
                    (map (fun wk => (tenantId doc, documentId doc, wk))
                         (workers doc)) w)) as (pss & Hpss & Hcat).
    unfold bind at 1. rewrite Hpss. unfold ret.
    eexists. split.
    + cbn [sweep_pairs flat_map]. by rewrite add_revokes_app.
    + cbn [concat sweep_pairs flat_map]. rewrite Hcat.
      rewrite length_app, seq_app, length_map. do 2 f_equal.
      unfold add_revokes. cbn [promises set_promises].
      by rewrite length_app, length_replicate, !length_map.
Qed.

Lemma revokeExpiredWork_eq this w m :
  heap w !! manager this = Some m ->
  revokeExpiredWork this w
  = Some (seq (length (promises w))
              (length (sweep_pairs (getExpiredDocuments (clock w) m))),
          add_revokes this (sweep_pairs (getExpiredDocuments (clock w) m)) w).
Proof.
  intros Hm. unfold revokeExpiredWork, the_manager, Date_now.
  unfold bind at 1. rewrite Hm. unfold bind at 1. unfold bind at 1.
  destruct (forM_docs this (getExpiredDocuments (clock w) m) w)
    as (pss & -> & Hcat).
  unfold ret. by rewrite Hcat.
Qed.

(** C4 (as the code has it).  [revokeExpiredWork] reads the expired
    documents of [this.manager] and, for every [(taskType, worker)] pair of
    every expired document, in order, emits exactly one "RevokeObject"
    message on the worker's socket naming the worker's client id, the tenant
    id, the document id and the task type, and collects exactly one promise.
    It does not wait: the call returns the array of promises at once, every
    one of them still pending, having touched neither a State Manager nor
    the log. *)
Theorem sweep_issues_one_revoke_per_pair this w m :
  heap w !! manager this = Some m ->
  let pairs := sweep_pairs (getExpiredDocuments (clock w) m) in
  exists ps w1,
    revokeExpiredWork this w = Some (ps, w1)
    /\ ps = seq (length (promises w)) (length pairs)
    /\ outbox w1
       = outbox w
         ++ imap (fun k x => revoke_emit this (length (promises w) + k) x) pairs
    /\ (forall k tenant document wk,
          pairs !! k = Some (tenant, document, wk) ->
          exists e,
            outbox w1 !! (length (outbox w) + k)%nat = Some e
            /\ em_socket e = socket (detail wk)
            /\ em_event e = "RevokeObject"
            /\ em_args e = [clientId (worker (detail wk)); tenant; document;
                            workType wk])
    /\ promises w1 = promises w ++ replicate (length pairs) Pending
    /\ (forall p, In p ps -> promises w1 !! p = Some Pending)
    /\ heap w1 = heap w /\ winston w1 = winston w /\ clock w1 = clock w.
Proof.
  intros Hm pairs. eexists _, _.
  split; [by apply revokeExpiredWork_eq|]. fold pairs.
  split; [done|]. split; [done|]. split; [|split; [done|split; [|done]]].
  - intros k t d wk Hk. eexists. split.
    + simpl. rewrite lookup_app_r by lia.
      replace (length (outbox w) + k - length (outbox w))%nat with k by lia.
      by rewrite list_lookup_imap, Hk.
    + done.
  - intros p Hp. apply in_seq in Hp. simpl.
    rewrite lookup_app_r by lia. apply lookup_replicate_2. lia.
Qed.

(** *** The fate of a promise *)

Lemma resolve_lookup_ne p q w :
  p <> q -> promises (resolve q w) !! p = promises w !! p.
Proof.
  intros Hne. unfold resolve. destruct (promises w !! q) as [[]|]; try done.
  simpl. by rewrite list_lookup_insert_ne.
Qed.

Lemma resolve_lookup_pending p w :
  promises w !! p = Some Pending ->
  promises (resolve p w) !! p = Some Fulfilled.
Proof.
  intros Hp. unfold resolve. rewrite Hp. simpl.
  apply list_lookup_insert_eq. by eapply lookup_lt_Some.
Qed.

Lemma resolve_lookup_settled p q st w :
  promises w !! p = Some st -> st <> Pending ->
  promises (resolve q w) !! p = Some st.
Proof.
  intros Hp Hst. destruct (decide (p = q)) as [->|Hne].
  - unfold resolve. rewrite Hp. by destruct st.
  - by rewrite resolve_lookup_ne.
Qed.

(** A settled promise stays as it is. *)
Lemma step_promise_settled p st w ev :
  promises w !! p = Some st -> st <> Pending ->
  promises (step w ev) !! p = Some st.
Proof.
  intros Hp Hst. destruct ev as [i err ack|ms]; simpl; [|done].
  destruct (outbox w !! i) as [e|]; [|done].
  destruct (em_callback e), ack; simpl; try done.
  destruct (heap w !! manager this); [|done].
  by apply resolve_lookup_settled.
Qed.

Lemma run_promise_settled p st evs w :
  promises w !! p = Some st -> st <> Pending ->
  promises (run evs w) !! p = Some st.
Proof.
  revert w. induction evs as [|ev evs IH]; intros w Hp Hst; [done|].
  rewrite run_cons. apply IH; [|done]. by apply step_promise_settled.
Qed.

Lemma step_promise_pending i p w ev :
  sole_resolver i p w ->
  positive_ack_for i ev = false ->
  promises (step w ev) !! p = promises w !! p.
Proof.
  intros Hsole Hev. destruct ev as [j err ack|ms]; simpl; [|done].
  destruct (outbox w !! j) as [e|] eqn:He; [|done].
  specialize (Hsole j e He).
  destruct (em_callback e) as [this' q wd t d wt|wd md], ack as [a|];
    simpl; try done.
  destruct (heap w !! manager this'); [|done].
  rewrite resolve_lookup_ne; [done|]. intros ->.
  simpl in Hev. apply bool_decide_eq_false in Hev. by apply Hev, Hsole.
Qed.

(** The promise of a revoke request is fulfilled exactly when a positive
    acknowledgment has been delivered to its own callback. *)
Lemma run_promise_outcome i e this p wd tenant document work evs w :
  outbox w !! i = Some e ->
  em_callback e = RevokeObjectAck this p wd tenant document work ->
  sole_resolver i p w ->
  is_Some (heap w !! manager this) ->
  promises w !! p = Some Pending ->
  promises (run evs w) !! p
  = Some (if has_positive_ack i evs then Fulfilled else Pending).
Proof.
  revert w. induction evs as [|ev evs IH]; intros w He Hcb Hsole Hm Hp;
    [done|].
  rewrite run_cons. cbn [has_positive_ack existsb].
  destruct (positive_ack_for i ev) eqn:Hev; cbn [orb].
  - apply run_promise_settled; [|done].
    destruct ev as [j err [a|]|ms]; simpl in Hev; try done.
    apply bool_decide_eq_true in Hev. subst j. destruct Hm as [m Hm].
    erewrite step_positive_ack by done.
    by apply resolve_lookup_pending.
  - apply IH.
    + by rewrite step_outbox.
    + done.
    + unfold sole_resolver. by rewrite step_outbox.
    + apply lookup_lt_is_Some. rewrite step_heap_length.
      by apply lookup_lt_is_Some.
    + by erewrite step_promise_pending.
Qed.

(** After a sweep, each new closure is the only resolver of its promise. *)
Lemma add_revokes_sole_resolver this pairs k w :
  wf_world w ->
  sole_resolver (length (outbox w) + k) (length (promises w) + k)
                (add_revokes this pairs w).
Proof.
  intros Hwf j e He Hp. simpl in He.
  destruct (decide (j < length (outbox w))%nat) as [Hlt|Hge].
  - rewrite lookup_app_l in He by done.
    pose proof (proj1 (Forall_lookup _ _) Hwf j e He _ Hp). lia.
  - rewrite lookup_app_r in He by lia.
    rewrite list_lookup_imap in He.
    destruct (pairs !! (j - length (outbox w))%nat) as [[[t d] wk]|];
      simplify_eq/=. lia.
Qed.

(** C5 (as the code has it).  Within a sweep the sub-revokes are
    independent: whatever the transport does (positive or negative
    acknowledgments, or none, in any order, to any request), the promise of
    the [k]-th sub-revoke is fulfilled exactly when a positive
    acknowledgment has been delivered to its own callback, and at that
    acknowledgment [revokeWork] is applied; the failure of a sibling never
    aborts or prevents it.  A failure is not reported in the returned array:
    a negative acknowledgment is only logged with [winston.error], and the
    promise of a sub-revoke that was declined or never answered stays
    pending. *)
Theorem sweep_revokes_are_independent this w m evs :
  wf_world w ->
  heap w !! manager this = Some m ->
  let pairs := sweep_pairs (getExpiredDocuments (clock w) m) in
  exists ps w1,
    revokeExpiredWork this w = Some (ps, w1)
    /\ (forall k, (k < length pairs)%nat ->
          promises (run evs w1) !! (length (promises w) + k)%nat
          = Some (if has_positive_ack (length (outbox w) + k) evs
                  then Fulfilled else Pending))
    /\ (forall k err, (k < length pairs)%nat ->
          step (run evs w1) (Deliver (length (outbox w) + k) err None)
          = winston_log error err (run evs w1))
    /\ (forall k tenant document wk err a m',
          pairs !! k = Some (tenant, document, wk) ->
          heap (run evs w1) !! manager this = Some m' ->
          heap (step (run evs w1) (Deliver (length (outbox w) + k) err (Some a)))
          = <[manager this :=
                revokeWork (detail wk) tenant document (workType wk) m']>
              (heap (run evs w1))).
Proof.
  intros Hwf Hm pairs. eexists _, _.
  split; [by apply revokeExpiredWork_eq|]. fold pairs.
  assert (Hlook : forall k x, pairs !! k = Some x ->
            outbox (add_revokes this pairs w) !! (length (outbox w) + k)%nat
            = Some (revoke_emit this (length (promises w) + k) x)).
  { intros k x Hk. simpl. rewrite lookup_app_r by lia.
    replace (length (outbox w) + k - length (outbox w))%nat with k by lia.
    by rewrite list_lookup_imap, Hk. }
  split; [|split].
  - intros k Hk.
    destruct (lookup_lt_is_Some_2 pairs k Hk) as [[[t d] wk] Hx].
    eapply run_promise_outcome.
    + by apply Hlook.
    + simpl. reflexivity.
    + by apply add_revokes_sole_resolver.
    + simpl. by rewrite Hm.
    + simpl. rewrite lookup_app_r by lia. apply lookup_replicate_2. lia.
  - intros k err Hk.
    destruct (lookup_lt_is_Some_2 pairs k Hk) as [[[t d] wk] Hx].
    eapply step_negative_ack.
    + rewrite run_outbox. by apply Hlook.
    + simpl. reflexivity.
  - intros k t d wk err a m' Hx Hm'.
    erewrite step_positive_ack; [|..|exact Hm'].
    + by rewrite resolve_heap.
    + rewrite run_outbox. by apply Hlook.
    + simpl. reflexivity.
Qed.

(** *** The broadcast *)

Lemma forM_emit moduleName action ws w :
  exists us,
    forM ws (fun wd =>
      emit (socket wd) "AgentObject"
           [clientId (worker wd); moduleName; action]
           (AgentObjectAck wd moduleName)) w
    = Some (us, set_outbox (outbox w ++ map (agent_emit moduleName action) ws) w).
Proof.
  revert w. induction ws as [|wd ws IH]; intros w.
  - exists []. simpl. unfold ret. destruct w; unfold set_outbox; simpl.
    by rewrite app_nil_r.
  - cbn [forM]. unfold bind at 1. unfold emit at 1.
    destruct (IH (set_outbox
                    (outbox w ++ [Build_Emit (socket wd) "AgentObject"
                       [clientId (worker wd); moduleName; action]
                       (AgentObjectAck wd moduleName)]) w)) as (us & Hus).
    unfold bind at 1. rewrite Hus. unfold ret. eexists.
    unfold set_outbox; simpl. by rewrite <- app_assoc.
Qed.

Lemma broadcastNewAgentModule_eq this moduleName workerType action w m :
  heap w !! manager this = Some m ->
  broadcastNewAgentModule this moduleName workerType action w
  = Some (tt, set_outbox
                (outbox w ++ map (agent_emit moduleName action)
                                 (broadcast_workers workerType m)) w).
Proof.
  intros Hm. unfold broadcastNewAgentModule, the_manager.
  unfold bind at 1. rewrite Hm. unfold bind at 1.
  fold (broadcast_workers workerType m).
  destruct (forM_emit moduleName action (broadcast_workers workerType m) w)
    as (us & ->).
  reflexivity.
Qed.

(** Messages whose callbacks are never invoked commute with every event. *)
Lemma step_add_emits es w ev :
  no_delivery_from (length (outbox w)) [ev] = true ->
  step (set_outbox (outbox w ++ es) w) ev
  = set_outbox (outbox (step w ev) ++ es) (step w ev).
Proof.
  intros Hev. rewrite step_outbox.
  destruct ev as [i err ack|ms]; [|done].
  simpl in Hev. rewrite andb_true_r in Hev. apply bool_decide_eq_true in Hev.
  simpl. rewrite lookup_app_l by done.
  destruct (outbox w !! i) as [e|]; [|done].
  destruct (em_callback e) as [this' p wd t d wt|wd md], ack as [a|];
    simpl; try done.
  destruct (heap w !! manager this') as [m|]; [|done].
  unfold resolve; simpl. by destruct (promises w !! p) as [[]|].
Qed.

Lemma run_add_emits es evs w :
  no_delivery_from (length (outbox w)) evs = true ->
  run evs (set_outbox (outbox w ++ es) w)
  = set_outbox (outbox (run evs w) ++ es) (run evs w).
Proof.
  revert w. induction evs as [|ev evs IH]; intros w Hevs; [done|].
  simpl in Hevs. apply andb_prop in Hevs as [Hev Hevs].
  rewrite !run_cons, step_add_emits by (simpl; by rewrite Hev).
  apply IH. by rewrite step_outbox.
Qed.

(** C7 (as the code has it).  [broadcastNewAgentModule] emits one
    "AgentObject" message, carrying the worker's client id, the module name
    and the action, to every active worker of the requested kind, and does
    nothing else.  A positive acknowledgment is logged with [winston.info];
    a negative acknowledgment is logged with [winston.info] as well (not as
    a warning); a missing acknowledgment is not logged at all.  In no case
    is anything sent again or taken back, and no State Manager changes. *)
Theorem broadcast_is_best_effort this moduleName workerType action w m evs :
  heap w !! manager this = Some m ->
  let ws := broadcast_workers workerType m in
  exists w1,
    broadcastNewAgentModule this moduleName workerType action w = Some (tt, w1)
    /\ outbox w1 = outbox w ++ map (agent_emit moduleName action) ws
    /\ heap w1 = heap w /\ promises w1 = promises w /\ winston w1 = winston w
    /\ (forall k wd err,
          ws !! k = Some wd ->
          (forall a,
             step (run evs w1) (Deliver (length (outbox w) + k) err (Some a))
             = winston_log info
                 (clientId (worker wd) +:+ " is ready to load " +:+ moduleName)
                 (run evs w1))
          /\ step (run evs w1) (Deliver (length (outbox w) + k) err None)
             = winston_log info err (run evs w1))
    /\ (no_delivery_from (length (outbox w)) evs = true ->
          heap (run evs w1) = heap (run evs w)
          /\ winston (run evs w1) = winston (run evs w)
          /\ outbox (run evs w1) = outbox w1).
Proof.
  intros Hm ws. eexists. split; [by apply broadcastNewAgentModule_eq|].
  fold ws. do 4 (split; [done|]). split.
  - intros k wd err Hk.
    assert (Hlook : outbox (run evs (set_outbox
                      (outbox w ++ map (agent_emit moduleName action) ws) w))
                    !! (length (outbox w) + k)%nat
                    = Some (agent_emit moduleName action wd)).
    { rewrite run_outbox. simpl. rewrite lookup_app_r by lia.
      replace (length (outbox w) + k - length (outbox w))%nat with k by lia.
      by rewrite list_lookup_fmap, Hk. }
    split; [intros a|]; unfold step; by rewrite Hlook.
  - intros Hevs. rewrite run_outbox, run_add_emits by done. done.
Qed.

(** C10. The worker kind is decided by string equality with ["server"]: the
    broadcast goes to the active server workers when [workerType] is
    ["server"], and to the active client workers for every other string. *)
Theorem broadcast_kind_by_server_equality this moduleName workerType action w m :
  heap w !! manager this = Some m ->
  exists w1,
    broadcastNewAgentModule this moduleName workerType action w = Some (tt, w1)
    /\ (workerType = "server" ->
          outbox w1 = outbox w ++ map (agent_emit moduleName action)
                                      (getActiveServerWorkers m))
    /\ (workerType <> "server" ->
          outbox w1 = outbox w ++ map (agent_emit moduleName action)
                                      (getActiveClientWorkers m)).
Proof.
  intros Hm. eexists. split; [by apply broadcastNewAgentModule_eq|].
  unfold broadcast_workers. split; intros Hwt; simpl.
  - apply String.eqb_eq in Hwt. by rewrite Hwt.
  - apply String.eqb_neq in Hwt. by rewrite Hwt.
Qed.

End ForemanFacts.

(** ** The State Manager: one live Assignment per key *)

Module StateManagerFacts.

Import StateManager.

Implicit Types (s : State) (a : Assignment) (k : Key).

Lemma new_unique_keys workerT documentT tasks :
  unique_keys (new workerT documentT tasks).
Proof. apply NoDup_nil_2. Qed.

Lemma key_of_touch now a : key_of (touch now a) = key_of a.
Proof. reflexivity. Qed.

Lemma lookup_assignment_None k s :
  lookup_assignment k s = None <-> k ∉ map key_of (table s).
Proof.
  unfold lookup_assignment. induction (table s) as [|a l IH]; simpl.
  - split; [intros _|done]. apply not_elem_of_nil.
  - rewrite not_elem_of_cons. case_bool_decide as Hk.
    + split; [done|]. intros [Hne _]. by destruct Hne.
    + rewrite IH. split; [intros Hl; by split|by intros [_ Hl]].
Qed.

Lemma lookup_assignment_Some k s a :
  lookup_assignment k s = Some a -> key_of a = k /\ a ∈ table s.
Proof.
  unfold lookup_assignment. intros Hf. apply find_some in Hf as [Hin Hk].
  apply bool_decide_eq_true in Hk. split; [done|]. by apply list_elem_of_In.
Qed.

Lemma keys_after_touch now k (l : list Assignment) :
  map key_of (map (fun b => if bool_decide (key_of b = k)
                            then touch now b else b) l)
  = map key_of l.
Proof.
  induction l as [|a l IH]; [done|]. simpl. rewrite IH.
  by case_bool_decide.
Qed.

Lemma find_after_touch now k (l : list Assignment) :
  List.find (fun a => bool_decide (key_of a = k))
            (map (fun b => if bool_decide (key_of b = k)
                           then touch now b else b) l)
  = touch now <$> List.find (fun a => bool_decide (key_of a = k)) l.
Proof.
  induction l as [|a l IH]; [done|]. cbn [map].
  destruct (decide (key_of a = k)) as [Hk|Hk].
  - rewrite (bool_decide_eq_true_2 _ Hk). cbn [List.find].
    rewrite key_of_touch. by rewrite (bool_decide_eq_true_2 _ Hk).
  - rewrite (bool_decide_eq_false_2 _ Hk). cbn [List.find].
    by rewrite (bool_decide_eq_false_2 _ Hk).
Qed.

Lemma find_after_append k (l : list Assignment) a :
  List.find (fun a => bool_decide (key_of a = k)) l = None ->
  key_of a = k ->
  List.find (fun a => bool_decide (key_of a = k)) (l ++ [a]) = Some a.
Proof.
  intros Hnone Hk. induction l as [|b l IH]; simpl in *.
  - by rewrite bool_decide_eq_true_2.
  - case_bool_decide; [done|]. by apply IH.
Qed.

(** A successful bind keeps the keys of the table distinct. *)
Lemma bindAssignment_unique_keys now tenant document task wd s s' :
  unique_keys s ->
  bindAssignment now tenant document task wd s = Ok s' ->
  unique_keys s'.
Proof.
  unfold unique_keys, bindAssignment. intros Hs Hb.
  destruct (lookup_assignment (tenant, document, task) s) as [a|] eqn:Hl.
  - case_bool_decide; [|done]. injection Hb as <-. simpl.
    by rewrite keys_after_touch.
  - injection Hb as <-. simpl. rewrite map_app. simpl.
    apply NoDup_app. split; [done|]. split; [|apply NoDup_singleton].
    intros k Hk Hk'. apply list_elem_of_singleton in Hk'. subst k.
    by apply lookup_assignment_None in Hl.
Qed.

Lemma bind_step_unique_keys s c : unique_keys s -> unique_keys (bind_step s c).
Proof.
  intros Hs. unfold bind_step.
  destruct (bindAssignment _ _ _ _ _ s) as [s'|] eqn:Hb; [|done].
  by eapply bindAssignment_unique_keys.
Qed.

Lemma bind_all_unique_keys cs s : unique_keys s -> unique_keys (bind_all cs s).
Proof.
  revert s. induction cs as [|c cs IH]; intros s Hs; [done|].
  simpl. apply IH. by apply bind_step_unique_keys.
Qed.

Lemma filter_key_absent k (l : list Assignment) :
  k ∉ map key_of l -> filter (fun a => key_of a = k) l = [].
Proof.
  induction l as [|a l IH]; [done|]. simpl. rewrite not_elem_of_cons.
  intros [Hne Hl]. rewrite filter_cons_False by done. by apply IH.
Qed.

Lemma unique_keys_live_count k s : unique_keys s -> (live_count k s <= 1)%nat.
Proof.
  unfold unique_keys, live_count. induction (table s) as [|a l IH]; simpl.
  - intros _. lia.
  - intros Hnd. apply NoDup_cons in Hnd as [Ha Hl].
    destruct (decide (key_of a = k)) as [Hk|Hk].
    + rewrite filter_cons_True by done. subst k.
      rewrite filter_key_absent by done. simpl. lia.
    + rewrite filter_cons_False by done. by apply IH.
Qed.

(** C6. Starting from a table with distinct keys (the empty table of a new
    State Manager is one), after every sequence of [bindAssignment] calls at
    most one live Assignment exists per [(tenantId, documentId, taskType)].
    A bind on a key whose live Assignment is held by a different worker
    fails with [AlreadyAssigned].  A bind on a free key, or to the worker
    that holds the key, succeeds: afterwards the key is held by that worker
    with [lastActivityAt = now], and still at most one Assignment exists per
    key. *)
Theorem bindAssignment_one_live_assignment_per_key cs s0 :
  unique_keys s0 ->
  let s := bind_all cs s0 in
  (forall k, (live_count k s <= 1)%nat)
  /\ (forall now tenant document task wd a,
        lookup_assignment (tenant, document, task) s = Some a ->
        clientId (worker (holder a)) <> clientId (worker wd) ->
        bindAssignment now tenant document task wd s = Err AlreadyAssigned)
  /\ (forall now tenant document task wd,
        lookup_assignment (tenant, document, task) s = None
        \/ (exists a, lookup_assignment (tenant, document, task) s = Some a
                      /\ clientId (worker (holder a)) = clientId (worker wd)) ->
        exists s' a',
          bindAssignment now tenant document task wd s = Ok s'
          /\ lookup_assignment (tenant, document, task) s' = Some a'
          /\ clientId (worker (holder a')) = clientId (worker wd)
          /\ lastActivityAt a' = now
          /\ (forall k, (live_count k s' <= 1)%nat)).
Proof.
  intros Hs0 s. pose proof (bind_all_unique_keys cs s0 Hs0) as Hs. fold s in Hs.
  split; [|split].
  - intros k. by apply unique_keys_live_count.
  - intros now t d tt wd a Hl Hne. unfold bindAssignment. rewrite Hl.
    by rewrite bool_decide_eq_false_2.
  - intros now t d tt wd Hfree.
    assert (exists s', bindAssignment now t d tt wd s = Ok s'
              /\ exists a', lookup_assignment (t, d, tt) s' = Some a'
                   /\ clientId (worker (holder a')) = clientId (worker wd)
                   /\ lastActivityAt a' = now) as (s' & Hb & a' & Ha' & Hc & Ht).
    { unfold bindAssignment.
      destruct Hfree as [Hnone|(a & Hsome & Hsame)].
      - rewrite Hnone. eexists. split; [done|]. eexists. split.
        + unfold lookup_assignment. simpl.
          apply find_after_append; [|reflexivity].
          by unfold lookup_assignment in Hnone.
        + done.
      - rewrite Hsome, bool_decide_eq_true_2 by done.
        eexists. split; [done|]. exists (touch now a). split; [|done].
        unfold lookup_assignment in *. simpl.
        by rewrite find_after_touch, Hsome. }
    exists s', a'. do 4 (split; [done|]).
    intros k. apply unique_keys_live_count.
    by eapply bindAssignment_unique_keys.
Qed.

End StateManagerFacts.

(** ** NullBlobStorageService *)

Module NullBlobStorageFacts.

Import NullBlobStorageService.

(** C8 (as the code has it).  The getter [repositoryUrl] and [getRawUrl]
    throw; [read], [write], [uploadSummary], [downloadSummary] and
    [createBlob] return a rejected promise; the three read queries do not
    reject: [getSnapshotTree] fulfils with [null], [getVersions] with an
    empty array and [getContent] with [undefined].  No member yields stored
    data. *)
Theorem null_blob_storage_outcomes
    {IVersion ITree ISummaryCommit ISummaryPackfileHandle Buffer Number : Type}
    (c : @Call IVersion ITree ISummaryCommit ISummaryPackfileHandle Buffer Number) :
  match c with
  | call_repositoryUrl => invoke c = Throws "Invalid operation"
  | call_getRawUrl _ => invoke c = Throws "Invalid operation"
  | call_read _ => invoke c = Rejects "Invalid operation"
  | call_write _ _ _ _ =>
      invoke c = Rejects "Null blob storage can not write commit"
  | call_uploadSummary _ => invoke c = Rejects "Invalid operation"
  | call_downloadSummary _ => invoke c = Rejects "Invalid operation"
  | call_createBlob _ =>
      invoke c = Rejects "Null blob storage can not create blob"
  | call_getSnapshotTree _ => invoke c = Resolves JsNull
  | call_getVersions _ _ => invoke c = Resolves (JsArray [])
  | call_getContent _ _ => invoke c = Resolves JsUndefined
  end.
Proof. by destruct c. Qed.

(** C8 as stated fails: [getSnapshotTree()] fulfils (with [null]), it
    neither throws nor rejects; so "every operation rejects" does not hold. *)
Lemma null_blob_storage_getSnapshotTree_fulfils :
  ~ (forall c : @Call unit unit unit unit unit unit, rejects (invoke c)).
Proof. intros Hall. exact (Hall (call_getSnapshotTree None)). Qed.

End NullBlobStorageFacts.

(** ** The deployment of [Scenario], run *)

Module ScenarioFacts.

Import StateManager Scenario.

(** The constructor builds [foreman] and allocates the State Manager. *)
Example constructor_builds_foreman :
  BaseForeman_new cfg empty_world
  = Some (foreman,
          {| heap := [new 60000 30000 ["intel"; "snapshot"]]; clock := 0;
             outbox := []; promises := []; winston := [] |}).
Proof. reflexivity. Qed.

Lemma world_wf : wf_world world.
Proof. constructor. Qed.

Lemma revoke_only_after_positive_ack_witness :
  no_positive_ack 0 [Deliver 0 "busy" None; Elapse 5000] = true
  /\ exists p w1,
       revokeOne foreman "tenantA" "doc1" "intel" W1 world = Some (p, w1)
       /\ heap (run [Deliver 0 "busy" None; Elapse 5000] w1) = [sm].
Proof.
  split; [reflexivity|].
  destruct (revoke_only_after_positive_ack foreman "tenantA" "doc1" "intel" W1
              world [Deliver 0 "busy" None; Elapse 5000] eq_refl)
    as (p & w1 & Hr & _ & _ & Hh & _).
  exists p, w1. split; [exact Hr|exact Hh].
Defined.

(** C2 as stated fails: the acknowledgment never arrives, five seconds pass
    (the configured [ackTimeout] is one second), and the promise of the
    revoke has not settled. *)
Lemma revoke_wait_exceeds_ackTimeout :
  exists p w1,
    revokeOne foreman "tenantA" "doc1" "intel" W1 world = Some (p, w1)
    /\ no_delivery 0 [Elapse 5000] = true
    /\ ackTimeout foreman < clock (run [Elapse 5000] w1) - clock w1
    /\ ~ settled (promises (run [Elapse 5000] w1) !! p).
Proof.
  eexists _, _. split; [vm_compute; reflexivity|]. split; [reflexivity|].
  split; [reflexivity|]. intros Hs. exact Hs.
Qed.

Lemma revoke_wait_is_unbounded_witness :
  wf_world world
  /\ no_delivery 0 [Elapse 5000; Deliver 7 "stray" None; Elapse 86400000] = true
  /\ exists p w1,
       revokeOne foreman "tenantA" "doc1" "intel" W1 world = Some (p, w1)
       /\ promises
            (run [Elapse 5000; Deliver 7 "stray" None; Elapse 86400000] w1) !! p
          = Some Pending.
Proof.
  split; [exact world_wf|]. split; [reflexivity|].
  destruct (revoke_wait_is_unbounded foreman "tenantA" "doc1" "intel" W1 world
              [Elapse 5000; Deliver 7 "stray" None; Elapse 86400000]
              world_wf eq_refl)
    as (p & w1 & Hr & _ & Hp).
  exists p, w1. split; [exact Hr|exact Hp].
Defined.

(** C3 as stated fails: when the acknowledgment never arrives, nothing is
    logged, however long one waits (and the revoke does not settle). *)
Lemma unanswered_revoke_logs_nothing :
  exists p w1,
    revokeOne foreman "tenantA" "doc1" "intel" W1 world = Some (p, w1)
    /\ ackTimeout foreman < clock (run [Elapse 5000] w1) - clock w1
    /\ winston (run [Elapse 5000] w1) = []
    /\ ~ settled (promises (run [Elapse 5000] w1) !! p).
Proof.
  eexists _, _. split; [vm_compute; reflexivity|]. split; [reflexivity|].
  split; [reflexivity|]. intros Hs. exact Hs.
Qed.

Lemma failed_revoke_leaves_assignment_witness :
  wf_world world
  /\ exists p w1,
       revokeOne foreman "tenantA" "doc1" "intel" W1 world = Some (p, w1)
       /\ step (run [Elapse 5000] w1) (Deliver 0 "busy" None)
          = winston_log error "busy" (run [Elapse 5000] w1)
       /\ heap (run [Elapse 5000] w1) = [sm].
Proof.
  split; [exact world_wf|].
  destruct (failed_revoke_leaves_assignment foreman "tenantA" "doc1" "intel" W1
              world [Elapse 5000] world_wf)
    as (p & w1 & Hr & Hneg & Habs).
  exists p, w1. split; [exact Hr|]. split; [exact (Hneg "busy")|].
  exact (proj1 (Habs eq_refl)).
Defined.

(** C4 as stated fails: the call has returned its three promises and none of
    the three sub-revokes has settled. *)
Lemma sweep_returns_before_revokes_settle :
  exists w1,
    revokeExpiredWork foreman world = Some ([0; 1; 2]%nat, w1)
    /\ ~ settled (promises w1 !! 0%nat)
    /\ ~ settled (promises w1 !! 1%nat)
    /\ ~ settled (promises w1 !! 2%nat).
Proof.
  eexists. split; [vm_compute; reflexivity|]. repeat split; intros Hs; exact Hs.
Qed.

Lemma sweep_issues_one_revoke_per_pair_witness :
  heap world !! manager foreman = Some sm
  /\ exists ps w1,
       revokeExpiredWork foreman world = Some (ps, w1)
       /\ ps = [0; 1; 2]%nat
       /\ map em_args (outbox w1)
          = [["W1"; "tenantA"; "doc1"; "intel"];
             ["W1"; "tenantA"; "doc1"; "snapshot"];
             ["W2"; "tenantA"; "doc2"; "intel"]].
Proof.
  split; [reflexivity|].
  destruct (sweep_issues_one_revoke_per_pair foreman world sm eq_refl)
    as (ps & w1 & Hr & Hps & Ho & _).
  exists ps, w1. split; [exact Hr|]. split; [exact Hps|].
  rewrite Ho. reflexivity.
Defined.

(** C5 as stated fails: in a sweep of three, the first revoke is declined and
    the second is never answered; the failures are not in the result, whose
    first two promises are still pending (not rejected); only the log knows
    of the first. *)
Lemma failed_revokes_are_not_reported :
  exists w1,
    revokeExpiredWork foreman world = Some ([0; 1; 2]%nat, w1)
    /\ let w2 := run [Deliver 0 "declined" None; Elapse 5000;
                      Deliver 2 "done" (Some (worker W2))] w1 in
       promises w2 = [Pending; Pending; Fulfilled]
       /\ winston w2 = [{| level := error; message := "declined" |}].
Proof. eexists. split; [vm_compute; reflexivity|]. split; reflexivity. Qed.

Lemma sweep_revokes_are_independent_witness :
  wf_world world
  /\ heap world !! manager foreman = Some sm
  /\ exists ps w1,
       revokeExpiredWork foreman world = Some (ps, w1)
       /\ promises (run [Deliver 0 "declined" None; Elapse 5000;
                         Deliver 2 "done" (Some (worker W2))] w1) !! 2%nat
          = Some Fulfilled.
Proof.
  split; [exact world_wf|]. split; [reflexivity|].
  destruct (sweep_revokes_are_independent foreman world sm
              [Deliver 0 "declined" None; Elapse 5000;
               Deliver 2 "done" (Some (worker W2))] world_wf eq_refl)
    as (ps & w1 & Hr & Hp & _).
  exists ps, w1. split; [exact Hr|].
  apply (Hp 2%nat). vm_compute. lia.
Defined.

Lemma bindAssignment_one_live_assignment_per_key_witness :
  unique_keys (registerWorker W2 client 0
                 (registerWorker W1 server 0 (new 60000 30000 ["intel"; "snapshot"])))
  /\ (forall k, (live_count k sm <= 1)%nat)
  /\ bindAssignment 5 "tenantA" "doc1" "intel" W2 sm = Err AlreadyAssigned.
Proof.
  split; [apply NoDup_nil_2|].
  destruct (StateManagerFacts.bindAssignment_one_live_assignment_per_key binds
              (registerWorker W2 client 0
                 (registerWorker W1 server 0
                    (new 60000 30000 ["intel"; "snapshot"])))
              NoDup_nil_2)
    as (Hcount & Hfail & _).
  split; [exact Hcount|].
  eapply Hfail; [reflexivity|]. simpl. intros Heq. discriminate Heq.
Defined.

(** C7 as stated fails: a declined broadcast is logged at level [info], not
    as a warning, and an unanswered one is not logged at all. *)
Lemma broadcast_nack_is_logged_as_info :
  exists w1,
    broadcastNewAgentModule foreman "translator.js" "server" "add" world
    = Some (tt, w1)
    /\ winston (step w1 (Deliver 0 "declined" None))
       = [{| level := info; message := "declined" |}]
    /\ level <$> winston (step w1 (Deliver 0 "declined" None)) <> [warn]
    /\ winston (run [Elapse 5000] w1) = [].
Proof.
  eexists. split; [vm_compute; reflexivity|]. split; [reflexivity|].
  split; [|reflexivity]. intros Heq. discriminate Heq.
Qed.

Lemma broadcast_is_best_effort_witness :
  heap world !! manager foreman = Some sm
  /\ exists w1,
       broadcastNewAgentModule foreman "translator.js" "server" "add" world
       = Some (tt, w1)
       /\ map em_args (outbox w1) = [["W1"; "translator.js"; "add"]]
       /\ step (run [Elapse 5000] w1) (Deliver 0 "done" (Some (worker W1)))
          = winston_log info "W1 is ready to load translator.js"
              (run [Elapse 5000] w1).
Proof.
  split; [reflexivity|].
  destruct (broadcast_is_best_effort foreman "translator.js" "server" "add"
              world sm [Elapse 5000] eq_refl)
    as (w1 & Hb & Ho & _ & _ & _ & Hack & _).
  exists w1. split; [exact Hb|]. split; [rewrite Ho; reflexivity|].
  exact (proj1 (Hack 0%nat W1 "done" eq_refl) (worker W1)).
Defined.

Lemma broadcast_kind_by_server_equality_witness :
  heap world !! manager foreman = Some sm
  /\ exists w1,
       broadcastNewAgentModule foreman "translator.js" "Server" "add" world
       = Some (tt, w1)
       /\ map em_socket (outbox w1) = [socket W2].
Proof.
  split; [reflexivity|].
  destruct (broadcast_kind_by_server_equality foreman "translator.js" "Server"
              "add" world sm eq_refl)
    as (w1 & Hb & _ & Hclient).
  exists w1. split; [exact Hb|].
  rewrite Hclient; [reflexivity|]. intros Heq. discriminate Heq.
Defined.

End ScenarioFacts.

(** ** More on the foreman: what its callbacks never do, edge cases, and how
    its methods compose *)

Section ForemanMore.

Context {M : Type} `{StateManagerOps M}.

Implicit Types (w : World M) (this : BaseForeman) (evs : list Event).
Implicit Types (ev : Event) (e : Emit) (cb : Callback) (p i : nat).

Lemma step_winston_prefix w ev : winston w `prefix_of` winston (step w ev).
Proof.
  destruct ev as [i err ack|ms]; simpl; [|done].
  destruct (outbox w !! i) as [e|]; [|done].
  destruct (em_callback e), ack; simpl; try done;
    try (by apply prefix_app_r).
  destruct (heap w !! manager this); [|done].
  by rewrite resolve_winston.
Qed.

Lemma run_winston_prefix evs w : winston w `prefix_of` winston (run evs w).
Proof.
  revert w. induction evs as [|ev evs IH]; intros w; [done|].
  rewrite run_cons. etrans; [apply step_winston_prefix|apply IH].
Qed.

(** X1. The acknowledgment callbacks never send a message (nothing is retried
    or re-sent), never create a promise, never allocate or drop a State
    Manager, and only ever append to the log. *)
Theorem callbacks_never_send_or_allocate evs w :
  outbox (run evs w) = outbox w
  /\ length (promises (run evs w)) = length (promises w)
  /\ length (heap (run evs w)) = length (heap w)
  /\ winston w `prefix_of` winston (run evs w).
Proof.
  split; [apply run_outbox|]. split; [apply run_promises_length|].
  split; [apply run_heap_length|apply run_winston_prefix].
Qed.

Lemma step_promise_cases p st w ev :
  promises w !! p = Some st ->
  promises (step w ev) !! p = Some st
  \/ (st = Pending /\ promises (step w ev) !! p = Some Fulfilled).
Proof.
  intros Hp. destruct (decide (st = Pending)) as [->|Hst].
  - destruct ev as [i err ack|ms]; simpl; [|by left].
    destruct (outbox w !! i) as [e|]; [|by left].
    destruct (em_callback e) as [this q wd t d wt|wd md], ack as [a|];
      simpl; try (by left).
    destruct (heap w !! manager this); [|by left].
    destruct (decide (p = q)) as [->|Hne].
    + right. split; [done|]. by apply resolve_lookup_pending.
    + left. by rewrite resolve_lookup_ne.
  - left. by apply step_promise_settled.
Qed.

(** X2. A promise settles at most once and is never rejected by the foreman:
    after any events it is what it was, or it was pending and is now
    fulfilled. *)
Theorem promises_settle_once_never_reject p st evs w :
  promises w !! p = Some st ->
  promises (run evs w) !! p = Some st
  \/ (st = Pending /\ promises (run evs w) !! p = Some Fulfilled).
Proof.
  revert w. induction evs as [|ev evs IH]; intros w Hp; [by left|].
  rewrite run_cons.
  destruct (step_promise_cases p st w ev Hp) as [Hsame|[-> Hful]].
  - by apply IH.
  - right. split; [done|]. by apply run_promise_settled.
Qed.

Lemma sweep_pairs_no_workers docs :
  Forall (fun doc => workers doc = []) docs -> sweep_pairs docs = [].
Proof.
  induction 1 as [|doc docs Hdoc _ IH]; [done|].
  cbn [sweep_pairs flat_map]. rewrite Hdoc. simpl. exact IH.
Qed.

(** X3. A sweep that finds nothing to revoke (no expired document, or expired
    documents without workers) returns the empty array and leaves the world
    untouched. *)
Theorem sweep_with_nothing_to_revoke this w m :
  heap w !! manager this = Some m ->
  Forall (fun doc => workers doc = []) (getExpiredDocuments (clock w) m) ->
  revokeExpiredWork this w = Some ([], w).
Proof.
  intros Hm Hdocs. rewrite (revokeExpiredWork_eq this w m Hm).
  rewrite (sweep_pairs_no_workers _ Hdocs). simpl.
  by rewrite add_revokes_nil.
Qed.

(** X4. A broadcast to a kind with no active worker sends nothing and leaves the
    world untouched. *)
Theorem broadcast_with_no_workers this moduleName workerType action w m :
  heap w !! manager this = Some m ->
  broadcast_workers workerType m = [] ->
  broadcastNewAgentModule this moduleName workerType action w = Some (tt, w).
Proof.
  intros Hm Hws. rewrite (broadcastNewAgentModule_eq _ _ _ _ _ m Hm), Hws.
  simpl. rewrite app_nil_r. by destruct w.
Qed.

Lemma on_the_wire_revokes this a pairs :
  on_the_wire <$> imap (fun k x => revoke_emit this (a + k) x) pairs
  = (fun x => on_the_wire (revoke_emit this 0 x)) <$> pairs.
Proof.
  rewrite fmap_imap, <- imap_const. apply imap_ext.
  intros k [[t d] wk] _. reflexivity.
Qed.

(** X5. Two sweeps in a row: the first changes no State Manager and not the
    clock, so the second finds the same expired assignments and sends every
    revoke request a second time, each with a new promise of its own.
    Requests in flight are not remembered. *)
Theorem repeated_sweep_repeats_every_request this w m :
  heap w !! manager this = Some m ->
  exists ps1 w1 ps2 w2,
    revokeExpiredWork this w = Some (ps1, w1)
    /\ revokeExpiredWork this w1 = Some (ps2, w2)
    /\ length ps2 = length ps1
    /\ (forall p, p ∈ ps1 -> p ∉ ps2)
    /\ on_the_wire <$> drop (length (outbox w1)) (outbox w2)
       = on_the_wire <$> drop (length (outbox w)) (outbox w1).
Proof.
  intros Hm.
  set (pairs := sweep_pairs (getExpiredDocuments (clock w) m)).
  assert (Hm1 : heap (add_revokes this pairs w) !! manager this = Some m)
    by done.
  eexists _, _, _, _.
  split; [by apply revokeExpiredWork_eq|]. fold pairs.
  split; [by apply revokeExpiredWork_eq|].
  cbn [clock add_revokes set_promises set_outbox]. fold pairs.
  split; [by rewrite !length_seq|]. split.
  - intros p Hp Hp'. apply elem_of_seq in Hp, Hp'.
    unfold add_revokes in Hp'. simpl in Hp'.
    rewrite length_app, length_replicate in Hp'. lia.
  - unfold add_revokes. simpl. rewrite !drop_app_length.
    by rewrite !on_the_wire_revokes.
Qed.

Lemma add_revokes_lookup this pairs k x w :
  pairs !! k = Some x ->
  outbox (add_revokes this pairs w) !! (length (outbox w) + k)%nat
  = Some (revoke_emit this (length (promises w) + k) x).
Proof.
  intros Hk. simpl. rewrite lookup_app_r by lia.
  replace (length (outbox w) + k - length (outbox w))%nat with k by lia.
  by rewrite list_lookup_imap, Hk.
Qed.

(** X6. Awaiting the whole result of a sweep: all the promises returned are
    fulfilled exactly when every sub-revoke has had a positive
    acknowledgment; one declined or unanswered request keeps the aggregate
    from ever completing. *)
Theorem sweep_completes_iff_all_acked this w m evs :
  wf_world w ->
  heap w !! manager this = Some m ->
  exists ps w1,
    revokeExpiredWork this w = Some (ps, w1)
    /\ (Forall (fun p => promises (run evs w1) !! p = Some Fulfilled) ps
        <-> forall k, (k < length ps)%nat ->
                      has_positive_ack (length (outbox w) + k) evs = true).
Proof.
  intros Hwf Hm.
  set (pairs := sweep_pairs (getExpiredDocuments (clock w) m)).
  eexists _, _. split; [by apply revokeExpiredWork_eq|]. fold pairs.
  assert (Hout : forall k, (k < length pairs)%nat ->
            promises (run evs (add_revokes this pairs w))
              !! (length (promises w) + k)%nat
            = Some (if has_positive_ack (length (outbox w) + k) evs
                    then Fulfilled else Pending)).
  { intros k Hk.
    destruct (lookup_lt_is_Some_2 pairs k Hk) as [[[t d] wk] Hx].
    eapply run_promise_outcome.
    - by apply add_revokes_lookup.
    - simpl. reflexivity.
    - by apply add_revokes_sole_resolver.
    - simpl. by rewrite Hm.
    - simpl. rewrite lookup_app_r by lia. apply lookup_replicate_2. lia. }
  rewrite Forall_seq, length_seq. split.
  - intros Hall k Hk. specialize (Hall (length (promises w) + k)%nat).
    rewrite Hout in Hall by done.
    destruct (has_positive_ack _ evs); [done|].
    by specialize (Hall ltac:(lia)).
  - intros Hall p Hp.
    replace p with (length (promises w) + (p - length (promises w)))%nat
      by lia.
    rewrite Hout by lia. by rewrite Hall by lia.
Qed.

(** X7. Every foreman constructed gets a State Manager of its own, built from
    the configured timeouts and task types; the State Managers that existed
    are untouched; and the acknowledgment of a revoke issued by one foreman
    never changes the State Manager of the other. *)
Theorem constructed_foremen_share_no_manager cfg1 cfg2 w :
  exists f1 w1 f2 w2,
    BaseForeman_new cfg1 w = Some (f1, w1)
    /\ BaseForeman_new cfg2 w1 = Some (f2, w2)
    /\ manager f1 <> manager f2
    /\ ackTimeout f1 = tmz_workerAckTimeMSec cfg1
    /\ ackTimeout f2 = tmz_workerAckTimeMSec cfg2
    /\ heap w2 !! manager f1
       = Some (StateManager_new (tmz_timeoutMSec_worker cfg1)
                 (tmz_timeoutMSec_document cfg1) (tmz_tasks cfg1))
    /\ heap w2 !! manager f2
       = Some (StateManager_new (tmz_timeoutMSec_worker cfg2)
                 (tmz_timeoutMSec_document cfg2) (tmz_tasks cfg2))
    /\ (forall l, (l < length (heap w))%nat -> heap w2 !! l = heap w !! l)
    /\ (forall w' p wd tenant document work err ack,
          heap (run_callback (RevokeObjectAck f1 p wd tenant document work)
                             err ack w') !! manager f2
          = heap w' !! manager f2).
Proof.
  eexists _, _, _, _. split; [reflexivity|]. split; [reflexivity|].
  cbn [manager ackTimeout heap set_heap].
  split; [rewrite length_app; simpl; lia|].
  split; [reflexivity|]. split; [reflexivity|].
  split.
  { rewrite <- app_assoc. by apply list_lookup_middle. }
  split; [by rewrite list_lookup_middle|]. split.
  - intros l Hl. rewrite <- app_assoc. by rewrite lookup_app_l.
  - intros w' p wd t d wt err [a|]; [|done].
    cbn [run_callback manager].
    match goal with
    | |- context [match ?x with _ => _ end] => destruct x as [m|]
    end; [|done].
    rewrite resolve_heap. cbn [heap set_heap].
    rewrite list_lookup_insert_ne; [done|]. rewrite length_app. simpl. lia.
Qed.

Lemma revokeExpiredWork_throws this w :
  heap w !! manager this = None -> revokeExpiredWork this w = None.
Proof.
  intros Hm. unfold revokeExpiredWork, the_manager. unfold bind at 1.
  by rewrite Hm.
Qed.

Lemma broadcastNewAgentModule_throws this moduleName workerType action w :
  heap w !! manager this = None ->
  broadcastNewAgentModule this moduleName workerType action w = None.
Proof.
  intros Hm. unfold broadcastNewAgentModule, the_manager. unfold bind at 1.
  by rewrite Hm.
Qed.

Lemma add_revokes_wf this pairs w :
  wf_world w -> wf_world (add_revokes this pairs w).
Proof.
  unfold wf_world. intros Hwf. simpl. apply Forall_app. split.
  - eapply Forall_impl; [exact Hwf|]. intros e He p Hp.
    specialize (He p Hp). rewrite length_app. lia.
  - apply Forall_lookup. intros k e Hk p Hp.
    rewrite list_lookup_imap in Hk.
    destruct (pairs !! k) as [[[t d] wk]|] eqn:Hx; simplify_eq/=.
    apply lookup_lt_Some in Hx.
    rewrite length_app, length_replicate. lia.
Qed.

Lemma add_emits_wf moduleName action ws w :
  wf_world w ->
  wf_world (set_outbox (outbox w ++ map (agent_emit moduleName action) ws) w).
Proof.
  unfold wf_world. intros Hwf. simpl. apply Forall_app. split; [done|].
  apply Forall_fmap, Forall_forall. intros wd _ p Hp. discriminate Hp.
Qed.

(** One action either does nothing or has one of four effects. *)
Lemma exec_cases w (a : @Action) :
  exec w a = w
  \/ (exists m, exec w a = set_heap (heap w ++ [m]) w)
  \/ (exists this pairs, exec w a = add_revokes this pairs w)
  \/ (exists moduleName action ws,
        exec w a
        = set_outbox (outbox w ++ map (agent_emit moduleName action) ws) w)
  \/ (exists ev, exec w a = step w ev).
Proof.
  destruct a as [cfg|this|this md wt act|ev]; simpl.
  - right. left. eexists. reflexivity.
  - unfold after. destruct (heap w !! manager this) as [m|] eqn:Hm.
    + rewrite (revokeExpiredWork_eq this w m Hm). right. right. left.
      eexists _, _. reflexivity.
    + rewrite revokeExpiredWork_throws by done. by left.
  - unfold after. destruct (heap w !! manager this) as [m|] eqn:Hm.
    + rewrite (broadcastNewAgentModule_eq _ _ _ _ _ m Hm).
      do 3 right. left. eexists _, _, _. reflexivity.
    + rewrite broadcastNewAgentModule_throws by done. by left.
  - do 4 right. eexists. reflexivity.
Qed.

Lemma exec_keeps w (a : @Action) :
  wf_world w ->
  wf_world (exec w a)
  /\ outbox w `prefix_of` outbox (exec w a)
  /\ (length (heap w) <= length (heap (exec w a)))%nat.
Proof.
  intros Hwf.
  destruct (exec_cases w a)
    as [->|[(m & ->)|[(this & pairs & ->)|[(md & act & ws & ->)|(ev & ->)]]]].
  - done.
  - split; [done|]. split; [done|]. simpl. rewrite length_app. lia.
  - split; [by apply add_revokes_wf|]. split; [|done].
    simpl. by apply prefix_app_r.
  - split; [by apply add_emits_wf|]. split; [|done].
    simpl. by apply prefix_app_r.
  - split; [by apply step_wf|]. rewrite step_outbox, step_heap_length. done.
Qed.

(** X8. Whatever sequence of constructions, sweeps, broadcasts and transport
    events happens: every closure waiting in the outbox still holds the
    [resolve] of an existing promise, a message once emitted is never taken
    back or changed, and no State Manager is ever dropped. *)
Theorem foreman_runs_keep_the_world_well_formed (acts : list (@Action)) w :
  wf_world w ->
  wf_world (exec_all acts w)
  /\ outbox w `prefix_of` outbox (exec_all acts w)
  /\ (length (heap w) <= length (heap (exec_all acts w)))%nat.
Proof.
  revert w. induction acts as [|a acts IH]; intros w Hwf; [done|].
  cbn [exec_all fold_left]. fold (exec_all acts (exec w a)).
  destruct (exec_keeps w a Hwf) as (Hwf' & Hpre & Hlen).
  destruct (IH _ Hwf') as (Hwf'' & Hpre' & Hlen').
  split; [done|]. split; [by etrans|lia].
Qed.




End ForemanMore.

(** ** The stress-test orchestrator *)

Module OrchestratorFacts.

Import Orchestrator.

Local Open Scope nat_scope.

(** *** The login variable *)

Lemma length_append (s t : string) :
  String.length (s +:+ t) = String.length s + String.length t.
Proof. induction s as [|c s IH]; simpl; [done|]. by rewrite IH. Qed.

Lemma append_cancel_r (t s s' : string) : s +:+ t = s' +:+ t -> s = s'.
Proof.
  revert s'. induction s as [|c s IH]; intros [|c' s'] Heq; simpl in Heq.
  - done.
  - apply (f_equal String.length) in Heq.
    rewrite ?length_append in Heq. simpl in Heq.
    rewrite ?length_append in Heq. lia.
  - apply (f_equal String.length) in Heq.
    rewrite ?length_append in Heq. simpl in Heq.
    rewrite ?length_append in Heq. lia.
  - injection Heq as -> Heq. f_equal. by apply IH.
Qed.

(** Two strings that agree after a quote-free prefix and a double quote
    agree on the prefix and on the rest. *)
Lemma split_at_first_quote (u u' r r' : string) :
  quote_free u -> quote_free u' ->
  u +:+ String dquote r = u' +:+ String dquote r' ->
  u = u' /\ r = r'.
Proof.
  revert u'. induction u as [|c u IH]; intros [|c' u'] Hu Hu' Heq;
    simpl in *.
  - by injection Heq as ->.
  - injection Heq as Hc _. destruct Hu' as [Hne _]. by destruct Hne.
  - injection Heq as Hc _. destruct Hu as [Hne _]. by destruct Hne.
  - injection Heq as -> Heq. destruct Hu as [_ Hu], Hu' as [_ Hu'].
    destruct (IH u' Hu Hu' Heq) as [-> ->]. done.
Qed.

(** X9. The login variable determines the account: for user names without a
    double quote (the template escapes nothing), two accounts with the same
    [createLoginEnv] text have the same user name and the same password. *)
Theorem createLoginEnv_determines_account (u p u' p' : string) :
  quote_free u -> quote_free u' ->
  createLoginEnv (Some u) (Some p) = createLoginEnv (Some u') (Some p') ->
  u = u' /\ p = p'.
Proof.
  intros Hu Hu' Heq. unfold createLoginEnv in Heq. simpl in Heq.
  injection Heq as Heq.
  apply split_at_first_quote in Heq as [-> Heq]; [|done..].
  split; [done|]. simpl in Heq. injection Heq as Heq.
  by apply append_cancel_r in Heq.
Qed.

(** *** The accounts of the runners *)

Lemma find_key_elem_of (o : ITestUserConfig) (u : string) :
  u ∈ Object_keys o ->
  exists p, (u, p) ∈ o
            /\ List.find (fun kv => bool_decide (kv.1 = u)) o = Some (u, p).
Proof.
  unfold Object_keys. induction o as [|[k v] o IH]; simpl.
  - intros Hin. by apply elem_of_nil in Hin.
  - intros Hin. case_bool_decide as Hk; simpl in Hk.
    + subst k. exists v. split; [by left|done].
    + apply elem_of_cons in Hin as [->|Hin]; [done|].
      destruct (IH Hin) as (p & Hp & Hfind). exists p. split; [by right|done].
Qed.

(** X10. Every runner that is started logs in with a real account: when the
    configuration has at least one user, the login variable of each runner
    is the [createLoginEnv] of a user name and the password configured for
    it, whatever the random start index.  With no user configured no runner
    is started at all: the user name is missing and building the home
    directory throws before the child is spawned. *)
Theorem runner_logs_in_with_a_configured_account
    (testUsers : ITestUserConfig) (startIndex index : nat) :
  match testUsers with
  | [] => runnerLogin testUsers startIndex index = None
  | _ => exists u p,
           (u, p) ∈ testUsers
           /\ get testUsers (Some u) = Some p
           /\ runnerLogin testUsers startIndex index
              = Some (createLoginEnv (Some u) (Some p))
  end.
Proof.
  destruct testUsers as [|kv o]; [done|].
  set (users := kv :: o).
  assert (Hn : length (Object_keys users) <> 0)
    by (unfold Object_keys; by rewrite length_fmap).
  destruct (lookup_lt_is_Some_2 (Object_keys users)
              ((index + startIndex) mod length (Object_keys users)))
    as [u Hu]; [by apply Nat.mod_upper_bound|].
  destruct (find_key_elem_of users u) as (p & Hp & Hfind).
  { apply list_elem_of_lookup. eauto. }
  exists u, p. split; [done|].
  assert (Hget : get users (Some u) = Some p)
    by (unfold get; change (interpolate (Some u)) with u; by rewrite Hfind).
  split; [done|].
  unfold runnerLogin, runnerUserName. by rewrite Hu, Hget.
Qed.

Lemma shift_back (n s i : nat) :
  n <> 0 -> i mod n = ((i + s) mod n + (n - s mod n)) mod n.
Proof.
  intros Hn. rewrite Nat.Div0.add_mod_idemp_l.
  pose proof (Nat.div_mod_eq s n) as Hs.
  pose proof (Nat.mod_upper_bound s n Hn) as Hlt.
  replace (i + s + (n - s mod n)) with (i + (s / n + 1) * n) by lia.
  by rewrite Nat.Div0.mod_add.
Qed.

(** X11. Two runners share a test account exactly when their indices differ by a
    multiple of the number of accounts; so with no more clients than
    accounts, all the runners use different accounts. *)
Theorem runners_share_account_iff (userNames : list string)
    (startIndex i j : nat) :
  NoDup userNames -> userNames <> [] ->
  (runnerUserName userNames startIndex i = runnerUserName userNames startIndex j
   <-> i mod length userNames = j mod length userNames)
  /\ (i < j < length userNames + i ->
      runnerUserName userNames startIndex i
      <> runnerUserName userNames startIndex j).
Proof.
  intros Hnd Hne.
  assert (Hn : length userNames <> 0) by (by destruct userNames).
  assert (Hiff : runnerUserName userNames startIndex i
                 = runnerUserName userNames startIndex j
                 <-> i mod length userNames = j mod length userNames).
  { unfold runnerUserName. split.
    - intros Heq.
      destruct (lookup_lt_is_Some_2 userNames
                  ((i + startIndex) mod length userNames)) as [u Hu];
        [by apply Nat.mod_upper_bound|].
      rewrite Hu in Heq. symmetry in Heq.
      pose proof (NoDup_lookup _ _ _ _ Hnd Hu Heq) as Hmod.
      rewrite (shift_back _ startIndex i Hn), (shift_back _ startIndex j Hn).
      by rewrite Hmod.
    - intros Hmod. f_equal.
      rewrite (Nat.Div0.add_mod i), (Nat.Div0.add_mod j). by rewrite Hmod. }
  split; [exact Hiff|].
  intros Hij Heq. apply Hiff in Heq.
  pose proof (Nat.div_mod_eq i (length userNames)) as Hi.
  pose proof (Nat.div_mod_eq j (length userNames)) as Hj.
  rewrite Heq in Hi.
  destruct (Nat.lt_ge_cases (i / length userNames) (j / length userNames))
    as [Hq|Hq].
  - apply Nat.le_succ_l in Hq.
    apply (Nat.mul_le_mono_l _ _ (length userNames)) in Hq. lia.
  - apply (Nat.mul_le_mono_l _ _ (length userNames)) in Hq. lia.
Qed.

(** X12. With at least as many clients as accounts, every configured account is
    used by some runner, wherever the random start index falls. *)
Theorem every_account_is_used (userNames : list string)
    (startIndex numClients : nat) (u : string) :
  length userNames <= numClients ->
  u ∈ userNames ->
  exists index, index < numClients
                /\ runnerUserName userNames startIndex index = Some u.
Proof.
  intros Hle Hin. apply list_elem_of_lookup in Hin as [k Hk].
  pose proof (lookup_lt_Some _ _ _ Hk) as Hlt.
  set (n := length userNames) in *.
  assert (Hn : n <> 0) by lia.
  exists ((k + (n - startIndex mod n)) mod n). split.
  - pose proof (Nat.mod_upper_bound (k + (n - startIndex mod n)) n Hn). lia.
  - unfold runnerUserName. fold n.
    rewrite Nat.Div0.add_mod_idemp_l.
    pose proof (Nat.div_mod_eq startIndex n) as Hs.
    pose proof (Nat.mod_upper_bound startIndex n Hn) as Hs'.
    replace (k + (n - startIndex mod n) + startIndex)
      with (k + (startIndex / n + 1) * n) by lia.
    rewrite Nat.Div0.mod_add, Nat.mod_small by done. exact Hk.
Qed.

(** *** The command lines of the runners *)

Lemma childArgs_inj driver profileName url seed now debug verbose :
  Inj (=) (=) (childArgs driver profileName url seed now debug verbose).
Proof.
  intros i j Heq. unfold childArgs in Heq.
  destruct debug, verbose; simpl in Heq; by simplify_eq.
Qed.

Lemma inspect_flag_inj (a b : N) :
  "--inspect=" +:+ pretty a = "--inspect=" +:+ pretty b -> a = b.
Proof. intros Heq. simpl in Heq. by simplify_eq. Qed.

(** X13. One command line per client, no two alike: the command line of
    client [i] carries [--runId] followed by the decimal [i].  Under
    [--debug] the command line of client [i] starts with the flag
    [--inspect=] followed by the decimal of [9230 + i]; these flags are
    pairwise different and none is [--inspect=9229], the default port, which
    is left to the orchestrator itself.  Without [--debug] no inspect flag
    is added: every command line starts with the runner script. *)
Theorem runner_command_lines_are_distinct
    driver profileName url seed now debug verbose numClients :
  length (runnerArgs driver profileName url seed now debug verbose numClients)
  = numClients
  /\ NoDup (runnerArgs driver profileName url seed now debug verbose numClients)
  /\ (forall i line,
        runnerArgs driver profileName url seed now debug verbose numClients !! i
        = Some line ->
        exists before rest,
          line = before ++ ["--runId"; pretty i] ++ rest)
  /\ (debug = true ->
      head <$> runnerArgs driver profileName url seed now debug verbose numClients
      = (fun i => Some ("--inspect=" +:+ pretty (9230 + N.of_nat i)%N))
          <$> seq 0 numClients
      /\ NoDup (head <$> runnerArgs driver profileName url seed now debug
                                    verbose numClients)
      /\ Some "--inspect=9229"
         ∉ head <$> runnerArgs driver profileName url seed now debug verbose
                               numClients)
  /\ (debug = false ->
      forall line,
        line ∈ runnerArgs driver profileName url seed now debug verbose numClients ->
        head line = Some "./dist/runner.js").
Proof.
  unfold runnerArgs. change (map ?f ?l) with (f <$> l).
  split; [by rewrite length_fmap, length_seq|]. split.
  { apply NoDup_fmap_2; [apply childArgs_inj|apply NoDup_seq]. }
  split.
  { intros i line Hi. rewrite list_lookup_fmap in Hi.
    destruct (seq 0 numClients !! i) as [k|] eqn:Hk; [|done].
    apply lookup_seq in Hk as [-> _]. simpl in Hi. injection Hi as <-.
    unfold childArgs. destruct debug, verbose.
    - by exists ["--inspect=" +:+ pretty (9230 + N.of_nat i)%N;
                 "./dist/runner.js"; "--driver"; driver; "--profile";
                 profileName],
                ["--url"; url; "--seed"; "0x" +:+ seedText seed now;
                 "--verbose"].
    - by exists ["--inspect=" +:+ pretty (9230 + N.of_nat i)%N;
                 "./dist/runner.js"; "--driver"; driver; "--profile";
                 profileName],
                ["--url"; url; "--seed"; "0x" +:+ seedText seed now].
    - by exists ["./dist/runner.js"; "--driver"; driver; "--profile";
                 profileName],
                ["--url"; url; "--seed"; "0x" +:+ seedText seed now;
                 "--verbose"].
    - by exists ["./dist/runner.js"; "--driver"; driver; "--profile";
                 profileName],
                ["--url"; url; "--seed"; "0x" +:+ seedText seed now]. }
  split.
  - intros ->.
    assert (Hflags :
      head <$> (childArgs driver profileName url seed now true verbose
                  <$> seq 0 numClients)
      = (fun i => Some ("--inspect=" +:+ pretty (9230 + N.of_nat i)%N))
          <$> seq 0 numClients).
    { rewrite <- list_fmap_compose. apply list_fmap_ext.
      intros k i _. simpl. by destruct verbose. }
    split; [exact Hflags|]. rewrite Hflags. split.
    + apply NoDup_fmap_2; [|apply NoDup_seq].
      intros i j Heq. apply (inj Some) in Heq.
      apply inspect_flag_inj in Heq. lia.
    + intros Hin. apply list_elem_of_fmap in Hin as (i & Heq & _).
      apply (inj Some) in Heq.
      change "--inspect=9229" with ("--inspect=" +:+ pretty 9229%N) in Heq.
      apply inspect_flag_inj in Heq. lia.
  - intros -> line Hin. apply list_elem_of_fmap in Hin as (i & -> & _).
    unfold childArgs. by destruct verbose.
Qed.

(** *** The output of a runner *)


Lemma first_line_is_prefix (data : string) :
  exists rest, data = first_line data +:+ rest.
Proof.
  induction data as [|c data [rest IH]]; simpl; [by exists ""|].
  destruct (Ascii.eqb c newline); simpl.
  - by eexists.
  - exists rest.
    change (String c data = String c (first_line data +:+ rest)).
    by f_equal.
Qed.


Lemma on_chunk_numbered runId userName io c :
  numbered_from_zero io -> numbered_from_zero (on_chunk runId userName io c).
Proof.
  intros [Hout Herr]. unfold numbered_from_zero, console_lines, error_lines in *.
  destruct c as [data|data]; cbn [on_chunk].
  - unfold on_stdout. cbn [stdOutLine stdErrLine telemetry console].
    destruct (0 <? String.length (remove_dots data)); [|done].
    cbn [stdOutLine stdErrLine telemetry].
    rewrite !omap_app, Hout, Herr, seq_S. simpl (omap _ [_]).
    by rewrite app_nil_r.
  - unfold on_stderr. cbn [stdOutLine stdErrLine telemetry].
    rewrite !omap_app, Hout, Herr, seq_S. simpl (omap _ [_]).
    by rewrite app_nil_r.
Qed.

Lemma fold_on_chunk_numbered runId userName chunks io :
  numbered_from_zero io ->
  numbered_from_zero (fold_left (on_chunk runId userName) chunks io).
Proof.
  revert io. induction chunks as [|c chunks IH]; intros io Hio; [done|].
  simpl. apply IH. by apply on_chunk_numbered.
Qed.

(** X14. The line numbers sent as telemetry have no gap and no repeat: the
    console events of a runner carry 0, 1, 2, ... in the order sent, and so
    do its error events, however standard output and standard error
    interleave. *)
Theorem telemetry_lines_are_consecutive runId userName chunks :
  console_lines (telemetry (setIoEvents runId userName chunks))
  = seq 0 (stdOutLine (setIoEvents runId userName chunks))
  /\ error_lines (telemetry (setIoEvents runId userName chunks))
     = seq 0 (stdErrLine (setIoEvents runId userName chunks)).
Proof. apply fold_on_chunk_numbered. by split. Qed.






End OrchestratorFacts.

(** ** The further properties on the concrete worlds *)

Module Scenario2Facts.

Import StateManager Scenario Scenario2 Orchestrator.

Lemma promises_settle_once_never_reject_witness :
  exists w1,
    revokeExpiredWork foreman world = Some ([0; 1; 2]%nat, w1)
    /\ promises w1 !! 1%nat = Some Pending
    /\ (promises (run all_acked w1) !! 1%nat = Some Pending
        \/ (Pending = Pending
            /\ promises (run all_acked w1) !! 1%nat = Some Fulfilled)).
Proof.
  eexists. split; [vm_compute; reflexivity|]. split; [reflexivity|].
  apply (promises_settle_once_never_reject 1%nat Pending all_acked).
  reflexivity.
Defined.

Lemma sweep_with_nothing_to_revoke_witness :
  heap early_world !! manager foreman = Some sm
  /\ Forall (fun doc => workers doc = [])
            (getExpiredDocuments (clock early_world) sm)
  /\ revokeExpiredWork foreman early_world = Some ([], early_world).
Proof.
  split; [reflexivity|]. split; [vm_compute; constructor|].
  apply (sweep_with_nothing_to_revoke foreman early_world sm);
    [reflexivity|vm_compute; constructor].
Defined.

Lemma broadcast_with_no_workers_witness :
  heap idle_world !! manager foreman
  = Some (new 60000 30000 ["intel"; "snapshot"])
  /\ broadcast_workers "client" (new 60000 30000 ["intel"; "snapshot"]) = []
  /\ broadcastNewAgentModule foreman "translator.js" "client" "add" idle_world
     = Some (tt, idle_world).
Proof.
  split; [reflexivity|]. split; [reflexivity|].
  apply (broadcast_with_no_workers foreman "translator.js" "client" "add"
           idle_world (new 60000 30000 ["intel"; "snapshot"]));
    reflexivity.
Defined.

Lemma repeated_sweep_repeats_every_request_witness :
  heap world !! manager foreman = Some sm
  /\ exists ps1 w1 ps2 w2,
       revokeExpiredWork foreman world = Some (ps1, w1)
       /\ revokeExpiredWork foreman w1 = Some (ps2, w2)
       /\ length ps2 = length ps1.
Proof.
  split; [reflexivity|].
  destruct (repeated_sweep_repeats_every_request foreman world sm eq_refl)
    as (ps1 & w1 & ps2 & w2 & H1 & H2 & Hlen & _).
  exists ps1, w1, ps2, w2. split; [exact H1|]. split; [exact H2|exact Hlen].
Defined.

Lemma sweep_completes_iff_all_acked_witness :
  wf_world world
  /\ heap world !! manager foreman = Some sm
  /\ exists ps w1,
       revokeExpiredWork foreman world = Some (ps, w1)
       /\ (Forall (fun p => promises (run all_acked w1) !! p = Some Fulfilled) ps
           <-> forall k, (k < length ps)%nat ->
                         has_positive_ack (length (outbox world) + k) all_acked
                         = true).
Proof.
  split; [constructor|]. split; [reflexivity|].
  apply (sweep_completes_iff_all_acked foreman world sm all_acked);
    [constructor|reflexivity].
Defined.

Lemma foreman_runs_keep_the_world_well_formed_witness :
  wf_world world
  /\ wf_world (exec_all busy_day world)
  /\ outbox world `prefix_of` outbox (exec_all busy_day world)
  /\ (length (heap world) <= length (heap (exec_all busy_day world)))%nat.
Proof.
  split; [constructor|].
  apply (foreman_runs_keep_the_world_well_formed busy_day world). constructor.
Defined.

Lemma createLoginEnv_determines_account_witness :
  quote_free "alice@contoso.test"
  /\ createLoginEnv (Some "alice@contoso.test") (Some "pw-a")
     = createLoginEnv (Some ("alice" +:+ "@contoso.test")) (Some ("pw" +:+ "-a"))
  /\ "alice@contoso.test" = "alice" +:+ "@contoso.test"
  /\ "pw-a" = "pw" +:+ "-a".
Proof.
  assert (Hq : quote_free "alice@contoso.test")
    by (simpl; repeat split; discriminate).
  split; [exact Hq|]. split; [reflexivity|].
  apply (OrchestratorFacts.createLoginEnv_determines_account
           "alice@contoso.test" "pw-a"
           ("alice" +:+ "@contoso.test") ("pw" +:+ "-a") Hq Hq).
  reflexivity.
Defined.

Lemma runners_share_account_iff_witness :
  NoDup (Object_keys accounts)
  /\ Object_keys accounts <> []
  /\ runnerUserName (Object_keys accounts) 2 0
     <> runnerUserName (Object_keys accounts) 2 2.
Proof.
  assert (Hnd : NoDup (Object_keys accounts)).
  { apply (bool_decide_unpack _). vm_compute. exact I. }
  assert (Hne : Object_keys accounts <> []) by discriminate.
  split; [exact Hnd|]. split; [exact Hne|].
  apply (proj2 (OrchestratorFacts.runners_share_account_iff (Object_keys accounts) 2 0 2 Hnd Hne)).
  vm_compute. lia.
Defined.

Lemma every_account_is_used_witness :
  (length (Object_keys accounts) <= 4)%nat
  /\ "bob@contoso.test" ∈ Object_keys accounts
  /\ exists index,
       (index < 4)%nat
       /\ runnerUserName (Object_keys accounts) 2 index
          = Some "bob@contoso.test".
Proof.
  assert (Hle : (length (Object_keys accounts) <= 4)%nat)
    by (vm_compute; lia).
  assert (Hin : "bob@contoso.test" ∈ Object_keys accounts)
    by (apply (bool_decide_unpack _); vm_compute; exact I).
  split; [exact Hle|]. split; [exact Hin|].
  apply (OrchestratorFacts.every_account_is_used (Object_keys accounts) 2 4 "bob@contoso.test"
           Hle Hin).
Defined.

Lemma runner_command_lines_are_distinct_witness :
  head <$> runnerArgs "odsp" "ci" "https://contoso.test/doc" (Some "255") 0
                      true false 2
  = [Some "--inspect=9230"; Some "--inspect=9231"]
  /\ (forall line,
        line ∈ runnerArgs "odsp" "ci" "https://contoso.test/doc" None 255
                          false true 2 ->
        head line = Some "./dist/runner.js").
Proof.
  split.
  - destruct (OrchestratorFacts.runner_command_lines_are_distinct "odsp" "ci"
                "https://contoso.test/doc" (Some "255") 0%N true false 2)
      as (_ & _ & _ & Hdebug & _).
    destruct (Hdebug eq_refl) as (Hflags & _). rewrite Hflags. reflexivity.
  - destruct (OrchestratorFacts.runner_command_lines_are_distinct "odsp" "ci"
                "https://contoso.test/doc" None 255%N false true 2)
      as (_ & _ & _ & _ & Hplain).
    exact (Hplain eq_refl).
Defined.


End Scenario2Facts.
